(** * awfar: the streaming loader [load_to_database.py]

    A shallow embedding of the loader that turns one large JSON array of
    chat messages into rows of the [messages] table: the brace/quote
    scanner of [stream_load_messages], the per-message extractors
    ([extract_id], [extract_foreign_key], [parse_timestamp],
    [extract_customer_phone]), the keyword classifiers, the batch writer,
    and [main]: the choice of the files, the reference data and the
    lookup dictionaries, the load and the banner.

    Conventions.
    - A Python [str] is the list of its code points ([pystr]); [len] is
      [length], [+=] is [++ [c]].
    - A decoded JSON value is a [pyval]; Python's [None] is [PNone].
    - What the loader takes from Python's library and cannot be read off
      the repository (lower-casing, the Unicode digit table behind [\d],
      [json.loads], [datetime.fromisoformat], the local time zone, [str()]
      of floats and containers) is a field of the class [Runtime]; every
      result below holds for every runtime, a reference runtime runs the
      examples.
    - An exception is a [None] result; the place that catches it is named
      where the [None] is consumed. *)

From Stdlib Require Import ZArith List String Ascii Bool Lia.
From Stdlib Require Import Floats.SpecFloat.
From Stdlib Require Import DecimalString.
Import ListNotations.
Local Open Scope string_scope.
Local Open Scope Z_scope.
Local Open Scope list_scope.
Set Warnings "-register-all".

(** ** Text *)

Definition pystr := list Z.

(** UTF-8 bytes to code points, to write keyword tables as they stand in
    the source. *)
Fixpoint utf8 (bs : list Z) : pystr :=
  match bs with
  | [] => []
  | b0 :: r0 =>
      if b0 <? 128 then b0 :: utf8 r0
      else match r0 with
           | [] => [b0]
           | b1 :: r1 =>
               if b0 <? 224 then ((b0 mod 32) * 64 + b1 mod 64) :: utf8 r1
               else match r1 with
                    | [] => [b0; b1]
                    | b2 :: r2 =>
                        if b0 <? 240
                        then ((b0 mod 16) * 4096 + (b1 mod 64) * 64 + b2 mod 64) :: utf8 r2
                        else match r2 with
                             | [] => [b0; b1; b2]
                             | b3 :: r3 =>
                                 ((b0 mod 8) * 262144 + (b1 mod 64) * 4096
                                  + (b2 mod 64) * 64 + b3 mod 64) :: utf8 r3
                             end
                    end
           end
  end.

Definition u (s : string) : pystr :=
  utf8 (map (fun a => Z.of_N (N_of_ascii a)) (list_ascii_of_string s)).

Definition QUOTE : Z := 34.
Definition APOSTROPHE : Z := 39.
Definition PLUS : Z := 43.
Definition AT : Z := 64.
Definition NEWLINE : Z := 10.
Definition LBRACKET : Z := 91.
Definition BACKSLASH : Z := 92.
Definition RBRACKET : Z := 93.
Definition LBRACE : Z := 123.
Definition RBRACE : Z := 125.

(** JSON text written with an apostrophe wherever the text has a double
    quote. *)
Definition js (s : string) : pystr :=
  map (fun c => if c =? APOSTROPHE then QUOTE else c) (u s).

Fixpoint str_eqb (a b : pystr) : bool :=
  match a, b with
  | [], [] => true
  | x :: a', y :: b' => (x =? y) && str_eqb a' b'
  | _, _ => false
  end.

Fixpoint startswith (w text : pystr) : bool :=
  match w, text with
  | [], _ => true
  | x :: w', y :: text' => (x =? y) && startswith w' text'
  | _ :: _, [] => false
  end.

(** [w in text] *)
Fixpoint contains (w text : pystr) : bool :=
  match text with
  | [] => match w with [] => true | _ => false end
  | _ :: rest => startswith w text || contains w rest
  end.

(** [text.replace(old_char, new)] for a one-character [old]. *)
Definition replace_char (old : Z) (new text : pystr) : pystr :=
  flat_map (fun c => if c =? old then new else [c]) text.

(** ** Python values *)

Inductive pyval : Type :=
| PNone
| PBool (b : bool)
| PInt (n : Z)
| PFloat (f : spec_float)
| PStr (s : pystr)
| PList (l : list pyval)
| PDict (d : list (pystr * pyval)).

(** A [dict] with [str] keys; a key is bound once, lookup takes the first
    binding. *)
Definition dict := list (pystr * pyval).

Fixpoint dict_get (d : dict) (k : pystr) : option pyval :=
  match d with
  | [] => None
  | (k', v) :: d' => if str_eqb k' k then Some v else dict_get d' k
  end.

(** [d.get(k, default)] *)
Definition get_default (d : dict) (k : pystr) (default : pyval) : pyval :=
  match dict_get d k with Some v => v | None => default end.

Definition sf_is_zero (f : spec_float) : bool :=
  match f with S754_zero _ => true | _ => false end.

(** Truth value testing: [if v], [not v], [v or w]. *)
Definition truthy (v : pyval) : bool :=
  match v with
  | PNone => false
  | PBool b => b
  | PInt n => negb (n =? 0)
  | PFloat f => negb (sf_is_zero f)
  | PStr s => match s with [] => false | _ => true end
  | PList l => match l with [] => false | _ => true end
  | PDict d => match d with [] => false | _ => true end
  end.

Definition py_or (a b : pyval) : pyval := if truthy a then a else b.

(** A [list] or a [dict] cannot be a dictionary key: [TypeError]. *)
Definition hashable (v : pyval) : bool :=
  match v with PList _ | PDict _ => false | _ => true end.

(** ** Dates *)

Record datetime : Type := {
  year : Z; month : Z; day : Z;
  hour : Z; minute : Z; second : Z; microsecond : Z
}.

(** Day number since 1970-01-01 to proleptic Gregorian (year, month, day). *)
Definition civil_from_days (days : Z) : Z * Z * Z :=
  let z := days + 719468 in
  let era := z / 146097 in
  let doe := z - era * 146097 in
  let yoe := (doe - doe / 1460 + doe / 36524 - doe / 146096) / 365 in
  let doy := doe - (365 * yoe + yoe / 4 - yoe / 100) in
  let mp := (5 * doy + 2) / 153 in
  let d := doy - (153 * mp + 2) / 5 + 1 in
  let m := if mp <? 10 then mp + 3 else mp - 9 in
  let y := yoe + era * 400 in
  (if m <=? 2 then y + 1 else y, m, d).

(** ** The library the loader runs on *)

Class Runtime : Type := {
  (** [str.lower] *)
  str_lower : pystr -> pystr;
  (** the decimal digits outside ASCII that [\d] matches in a [str] pattern *)
  unicode_Nd : Z -> bool;
  (** [str(v)] for a float, a list or a dict *)
  str_other : pyval -> pystr;
  (** [json.loads]; [None] is [json.JSONDecodeError] *)
  json_loads : pystr -> option pyval;
  (** [datetime.fromisoformat]; [None] is [ValueError] *)
  fromisoformat : pystr -> option datetime;
  (** the local zone: its offset from UTC, in seconds, at a UTC second *)
  utcoffset : Z -> Z;
  str_lower_nil : str_lower [] = [];
  str_other_nonempty : forall v, str_other v <> []
}.

Section Loader.
Context {RT : Runtime}.

(** [str(v)] *)
Definition py_str (v : pyval) : pystr :=
  match v with
  | PStr s => s
  | PNone => u "None"
  | PBool true => u "True"
  | PBool false => u "False"
  | PInt n => u (NilZero.string_of_int (Z.to_int n))
  | _ => str_other v
  end.

(** ** [extract_id], [extract_foreign_key] *)

Definition unwrap_oid (id_val : pyval) : option pyval :=
  match id_val with
  | PDict d => dict_get d (u "$oid")
  | _ => None
  end.

Definition extract_id (obj : dict) (key : pystr) : pyval :=
  if negb (truthy (PDict obj)) then PNone
  else match dict_get obj key with
       | None => PNone
       | Some id_val =>
           match unwrap_oid id_val with
           | Some oid => oid
           | None => PStr (py_str id_val)
           end
       end.

Fixpoint first_key (obj : dict) (possible_keys : list pystr) : option pyval :=
  match possible_keys with
  | [] => None
  | key :: rest =>
      match dict_get obj key with
      | Some id_val => Some id_val
      | None => first_key obj rest
      end
  end.

Definition extract_foreign_key (obj : dict) (possible_keys : list pystr) : pyval :=
  if negb (truthy (PDict obj)) then PNone
  else match first_key obj possible_keys with
       | None => PNone
       | Some id_val =>
           match unwrap_oid id_val with
           | Some oid => oid
           | None => if truthy id_val then PStr (py_str id_val) else PNone
           end
       end.

(** ** [parse_timestamp] *)

Definition b64 (n : Z) : spec_float := binary_normalize 53 1024 n 0 false.

(** An [int] as an exact operand of a correctly rounded operation. *)
Definition sf_of_Z (n : Z) : spec_float :=
  match n with
  | Z0 => S754_zero false
  | Zpos p => S754_finite false p 0
  | Zneg p => S754_finite true p 0
  end.

Inductive pynum : Type :=
| NInt (n : Z)
| NFloat (f : spec_float).

(** [x > 1e12] *)
Definition gt_1e12 (x : pynum) : bool :=
  match x with
  | NInt n => n >? 10 ^ 12
  | NFloat f => SFltb (b64 (10 ^ 12)) f
  end.

(** [x / 1000]: a binary64, the exact quotient rounded to nearest even. *)
Definition div_1000 (x : pynum) : spec_float :=
  match x with
  | NInt n => SFdiv 53 1024 (sf_of_Z n) (b64 1000)
  | NFloat f => SFdiv 53 1024 f (b64 1000)
  end.

Definition round_half_even (num den : Z) : Z :=
  let q := num / den in
  let r := num mod den in
  if 2 * r <? den then q
  else if den <? 2 * r then q + 1
  else if Z.even q then q else q + 1.

(** The nearest integer, ties to even, of a finite binary64. *)
Definition sf_round (f : spec_float) : Z :=
  match f with
  | S754_finite s m e =>
      let v := cond_Zopp s (Zpos m) in
      if 0 <=? e then v * 2 ^ e else round_half_even v (2 ^ (- e))
  | _ => 0
  end.

(** Whole seconds and microseconds of a timestamp: an [int] as it is, a
    float split by [modf], its fraction scaled by the binary64 product with
    [1e6] and rounded half to even, with the carry folded back. [None] is
    the [ValueError] of a NaN and the [OverflowError] of an infinity. *)
Definition to_timeval (x : pynum) : option (Z * Z) :=
  match x with
  | NInt n => Some (n, 0)
  | NFloat (S754_zero _) => Some (0, 0)
  | NFloat (S754_finite s m e) =>
      let v := cond_Zopp s (Zpos m) in
      if 0 <=? e then Some (v * 2 ^ e, 0)
      else
        let den := 2 ^ (- e) in
        let intpart := Z.quot v den in
        let frac := match Z.rem v den with
                    | Z0 => S754_zero s
                    | Zpos p => S754_finite false p e
                    | Zneg p => S754_finite true p e
                    end in
        let us := sf_round (SFmul 53 1024 frac (b64 1000000)) in
        if 1000000 <=? us then Some (intpart + 1, us - 1000000)
        else if us <? 0 then Some (intpart - 1, us + 1000000)
        else Some (intpart, us)
  | NFloat _ => None
  end.

(** [datetime.fromtimestamp(x)]: the local date and time of the instant;
    [None] is the error raised for a year outside 1..9999. *)
Definition fromtimestamp (x : pynum) : option datetime :=
  match to_timeval x with
  | None => None
  | Some (secs, us) =>
      let local := secs + utcoffset secs in
      let '(y, m, d) := civil_from_days (local / 86400) in
      let sod := local mod 86400 in
      if (1 <=? y) && (y <=? 9999)
      then Some {| year := y; month := m; day := d;
                   hour := sod / 3600; minute := (sod mod 3600) / 60;
                   second := sod mod 60; microsecond := us |}
      else None
  end.

(** The numeric branch, written twice in the source (wrapped and bare). *)
Definition epoch_to_datetime (x : pynum) : option datetime :=
  if gt_1e12 x then fromtimestamp (NFloat (div_1000 x))
  else fromtimestamp x.

Definition iso_to_datetime (s : pystr) : option datetime :=
  fromisoformat (replace_char 90 (u "+00:00") s).

(** Every exception inside is caught by the bare [except] and gives
    [None]; a [bool] is an [int] for [isinstance]. *)
Definition parse_timestamp (ts : pyval) : option datetime :=
  if negb (truthy ts) then None
  else match ts with
       | PDict d =>
           match dict_get d (u "$date") with
           | Some (PStr s) => iso_to_datetime s
           | Some (PBool b) => epoch_to_datetime (NInt (Z.b2z b))
           | Some (PInt n) => epoch_to_datetime (NInt n)
           | Some (PFloat f) => epoch_to_datetime (NFloat f)
           | _ => None
           end
       | PBool b => epoch_to_datetime (NInt (Z.b2z b))
       | PInt n => epoch_to_datetime (NInt n)
       | PFloat f => epoch_to_datetime (NFloat f)
       | PStr s => iso_to_datetime s
       | _ => None
       end.

(** ** The classifiers *)

(** First label, in table order, one of whose keywords occurs in [text]. *)
Fixpoint first_label (table : list (pystr * list pystr)) (text fallback : pystr) : pystr :=
  match table with
  | [] => fallback
  | (label, keywords) :: rest =>
      if existsb (fun keyword => contains keyword text) keywords then label
      else first_label rest text fallback
  end.

Definition categories : list (pystr * list pystr) :=
  [ (u "Order/Purchase", map u ["order"; "طلب"; "اطلب"; "عايز"; "محتاج"; "ابعتلي"; "اوردر"; "شراء"; "اشتري"]);
    (u "Inquiry/Question", map u ["?"; "؟"; "سؤال"; "استفسار"; "ايه"; "how"; "what"; "فين"; "امتى"]);
    (u "Price Inquiry", map u ["سعر"; "كام"; "بكام"; "price"; "cost"; "تكلفة"]);
    (u "Availability", map u ["متوفر"; "موجود"; "available"; "عندكم"; "فيه"; "stock"]);
    (u "Alternative Request", map u ["بديل"; "alternative"; "غيره"; "تاني"; "similar"]);
    (u "Complaint", map u ["شكوى"; "مشكلة"; "problem"; "issue"; "complaint"; "زعلان"; "غلط"]);
    (u "Delivery", map u ["توصيل"; "delivery"; "شحن"; "وصل"; "هيوصل"; "العنوان"; "address"]);
    (u "Payment", map u ["دفع"; "payment"; "فلوس"; "money"; "فيزا"; "كاش"; "تحويل"]);
    (u "Medical Advice", map u ["دواء"; "علاج"; "medicine"; "treatment"; "ينفع"; "جرعة"; "dose"]);
    (u "Thanks/Feedback", map u ["شكرا"; "thanks"; "تمام"; "ممتاز"; "great"; "excellent"]);
    (u "Greeting", map u ["السلام"; "صباح"; "مساء"; "hello"; "hi"; "اهلا"; "ازيك"]) ].

Definition categorize_message (body : pyval) : pystr :=
  if negb (truthy body) then u "Other"
  else first_label categories (str_lower (py_str body)) (u "Other").

Definition positive_words : list pystr :=
  map u ["شكرا"; "thanks"; "great"; "excellent"; "ممتاز"; "رائع"; "جميل";
         "تمام"; "كويس"; "good"; "nice"; "amazing"; "love"; "best"; "perfect";
         "happy"; "سعيد"; "مبسوط"; "تسلم"; "احسن"; "برافو"].

Definition negative_words : list pystr :=
  map u ["سيء"; "bad"; "terrible"; "awful"; "worst"; "hate"; "مشكلة";
         "زعلان"; "غضبان"; "مش كويس"; "وحش"; "problem"; "issue";
         "شكوى"; "disappointed"; "فاشل"; "متأخر"; "late"; "wrong"].

(** [sum(1 for w in words if w in text)] *)
Definition count_hits (words : list pystr) (text : pystr) : Z :=
  fold_right (fun w acc => if contains w text then 1 + acc else acc) 0 words.

Definition detect_sentiment (body : pyval) : pystr :=
  if negb (truthy body) then u "Neutral"
  else
    let body_lower := str_lower (py_str body) in
    let positive_count := count_hits positive_words body_lower in
    let negative_count := count_hits negative_words body_lower in
    if positive_count >? negative_count then u "Positive"
    else if negative_count >? positive_count then u "Negative"
    else u "Neutral".

Definition urgent : list pystr :=
  map u ["urgent"; "ضروري"; "مستعجل"; "بسرعة"; "حالا"; "emergency"; "طوارئ"; "فورا"].

Definition high : list pystr :=
  map u ["important"; "مهم"; "please"; "من فضلك"; "محتاج"; "need"].

Definition detect_urgency (body : pyval) : pystr :=
  if negb (truthy body) then u "Normal"
  else first_label [(u "Urgent", urgent); (u "High", high)]
         (str_lower (py_str body)) (u "Normal").

Definition intents : list (pystr * list pystr) :=
  [ (u "Buy", map u ["اشتري"; "طلب"; "عايز"; "order"; "buy"; "purchase"]);
    (u "Ask Price", map u ["سعر"; "كام"; "بكام"; "price"; "cost"]);
    (u "Check Availability", map u ["متوفر"; "موجود"; "available"; "عندكم"]);
    (u "Get Alternative", map u ["بديل"; "alternative"; "غيره"]);
    (u "Track Order", map u ["فين"; "وصل"; "الاوردر"; "tracking"; "status"]);
    (u "Get Medical Advice", map u ["ينفع"; "اخد"; "جرعة"; "علاج"; "دواء"]);
    (u "Report Problem", map u ["مشكلة"; "شكوى"; "problem"; "issue"]);
    (u "Give Feedback", map u ["شكرا"; "تمام"; "ممتاز"; "thanks"; "feedback"]) ].

Definition detect_intent (body : pyval) : pystr :=
  if negb (truthy body) then u "General"
  else first_label intents (str_lower (py_str body)) (u "General").

(** ** [extract_customer_phone] *)

Definition possible_fields : list pystr :=
  map u ["remoteJid"; "from"; "to"; "sender"; "chatId"; "participant";
         "jid"; "phone"; "number"; "contact"].

Definition key_fields : list pystr := map u ["remoteJid"; "participant"; "from"; "to"].

Definition parents : list pystr := map u ["message"; "chat"; "contact"; "sender"].

Definition parent_fields : list pystr := map u ["jid"; "phone"; "id"; "number"].

(** [for field in fields: if field in d and d[field]: phone = d[field]; break] *)
Fixpoint first_truthy (d : dict) (fields : list pystr) (phone : pyval) : pyval :=
  match fields with
  | [] => phone
  | field :: rest =>
      match dict_get d field with
      | Some v => if truthy v then v else first_truthy d rest phone
      | None => first_truthy d rest phone
      end
  end.

(** [for field in fields: if field in d: phone = d[field]; break] *)
Fixpoint first_present (d : dict) (fields : list pystr) (phone : pyval) : pyval :=
  match fields with
  | [] => phone
  | field :: rest =>
      match dict_get d field with
      | Some v => v
      | None => first_present d rest phone
      end
  end.

(** The body of the loop over [parents]: its [break] leaves the inner loop
    only, so the loop goes on to the next parent. *)
Definition try_parent (msg : dict) (phone : pyval) (parent : pystr) : pyval :=
  match dict_get msg parent with
  | Some (PDict p) => first_present p parent_fields phone
  | _ => phone
  end.

(** The three lookups, up to [# Clean the phone number]. *)
Definition find_phone (msg : dict) : pyval :=
  let phone := first_truthy msg possible_fields PNone in
  let phone :=
    if negb (truthy phone)
    then match dict_get msg (u "key") with
         | Some (PDict key) => first_truthy key key_fields phone
         | _ => phone
         end
    else phone in
  if negb (truthy phone) then fold_left (try_parent msg) parents phone
  else phone.

(** [\d] *)
Definition re_digit (c : Z) : bool :=
  if c <? 128 then (48 <=? c) && (c <=? 57) else unicode_Nd c.

(** [re.sub(r'@.*', '', s)]: [.] stops at a newline, so each [@] goes with
    the rest of its line; [dropping] is true inside a match. *)
Fixpoint strip_at (dropping : bool) (s : pystr) : pystr :=
  match s with
  | [] => []
  | c :: rest =>
      if dropping
      then if c =? NEWLINE then c :: strip_at false rest else strip_at true rest
      else if c =? AT then strip_at true rest else c :: strip_at false rest
  end.

Definition digit_or_plus (c : Z) : bool := re_digit c || (c =? PLUS).

(** [re.sub(r'[^\d+]', '', s)] *)
Definition keep_digits_plus (s : pystr) : pystr := filter digit_or_plus s.

Definition clean_phone (phone : pyval) : option pystr :=
  match phone with
  | PStr s =>
      if truthy phone
      then let cleaned := keep_digits_plus (strip_at false s) in
           if (10 <=? List.length cleaned)%nat then Some cleaned else None
      else None
  | _ => None
  end.

Definition extract_customer_phone (msg : dict) : option pystr :=
  clean_phone (find_phone msg).

(** ** The row of [messages] *)

(** The columns [timestamp], [date], [hour] are kept as the decoded
    datetime, its (year, month, day) and its hour; the renderings
    [day_of_week], [month] and [week] ([strftime]) are left out. *)
Record row : Type := {
  message_id : pyval;
  direction : pystr;
  type_ : pyval;
  status : pyval;
  body : pyval;
  body_length : Z;
  word_count : Z;
  is_broadcast : Z;
  is_deleted : Z;
  is_group : Z;
  has_question : Z;
  has_emoji : Z;
  has_link : Z;
  customer_phone : option pystr;
  instance_id : pyval;
  instance_name : pyval;
  company_id : pyval;
  company_name : pyval;
  category : pystr;
  sentiment : pystr;
  urgency : pystr;
  intent : pystr;
  timestamp : option datetime;
  row_date : option (Z * Z * Z);
  row_hour : option Z
}.

(** [str.isspace], the separators of [str.split()]. *)
Definition py_isspace (c : Z) : bool :=
  ((9 <=? c) && (c <=? 13)) || ((28 <=? c) && (c <=? 32)) || (c =? 133) || (c =? 160)
  || (c =? 5760) || ((8192 <=? c) && (c <=? 8202)) || (c =? 8232) || (c =? 8233)
  || (c =? 8239) || (c =? 8287) || (c =? 12288).

(** [len(s.split())] *)
Fixpoint count_words (in_word : bool) (s : pystr) : Z :=
  match s with
  | [] => 0
  | c :: rest =>
      if py_isspace c then count_words false rest
      else (if in_word then 0 else 1) + count_words true rest
  end.

(** [1 if v else 0] *)
Definition flag (b : bool) : Z := if b then 1 else 0.

(** A reference table seen through [.get]: a [dict] from identifier to
    object. *)
Definition refs : Type := pyval -> option dict.

(** [table.get(k)]; [None] is the [TypeError] of an unhashable key. *)
Definition refs_get (table : refs) (k : pyval) : option (option dict) :=
  if hashable k then Some (table k) else None.

Definition name_of (obj : option dict) : pyval :=
  match obj with
  | Some d => if truthy (PDict d) then get_default d (u "name") (PStr (u "Unknown"))
              else PStr (u "Unknown")
  | None => PStr (u "Unknown")
  end.

Definition broadcast_keys : list pystr := map u ["broadCastId"; "broadcast_id"; "broadcast"].

(** Lines 370-419: the row of a decoded message; [None] is an exception
    raised on the way (caught by [except Exception: pass]). *)
Definition build_row (instances_dict companies_dict : refs) (msg : dict) : option row :=
  let instance_id := extract_foreign_key msg (map u ["instance"; "instanceId"; "instance_id"]) in
  match (if truthy instance_id then refs_get instances_dict instance_id else Some None) with
  | None => None
  | Some instance =>
      match (match instance with
             | Some i =>
                 if truthy (PDict i)
                 then let company_id :=
                        extract_foreign_key i (map u ["company"; "companyId"; "company_id"]) in
                      option_map (fun company => (company_id, company))
                        (refs_get companies_dict company_id)
                 else Some (PNone, None)
             | None => Some (PNone, None)
             end) with
      | None => None
      | Some (company_id, company) =>
          let timestamp :=
            parse_timestamp (py_or (get_default msg (u "createdAt") PNone)
                                   (get_default msg (u "timestamp") PNone)) in
          let body := py_or (get_default msg (u "body") (PStr [])) (PStr []) in
          let broadcast_id := extract_foreign_key msg broadcast_keys in
          Some {|
            message_id := extract_id msg (u "_id");
            direction := if truthy (get_default msg (u "fromMe") (PBool false))
                         then u "Outgoing" else u "Incoming";
            type_ := get_default msg (u "type") (PStr (u "unknown"));
            status := get_default msg (u "status") (PStr (u "unknown"));
            body := body;
            body_length := if truthy body then Z.of_nat (List.length (py_str body)) else 0;
            word_count := if truthy body then count_words false (py_str body) else 0;
            is_broadcast :=
              flag (truthy (py_or (get_default msg (u "isBroadCast") (PBool false)) broadcast_id));
            is_deleted := flag (truthy (get_default msg (u "isDeleted") (PBool false)));
            is_group := flag (truthy (get_default msg (u "isGroup") (PBool false)));
            has_question := flag (contains (u "?") (py_str body) || contains (u "؟") (py_str body));
            has_emoji := flag (existsb (fun c => (128512 <=? c) && (c <=? 128591)) (py_str body));
            has_link := flag (contains (u "http://") (py_str body)
                              || contains (u "https://") (py_str body));
            customer_phone := extract_customer_phone msg;
            instance_id := instance_id;
            instance_name := name_of instance;
            company_id := company_id;
            company_name := name_of company;
            category := categorize_message body;
            sentiment := detect_sentiment body;
            urgency := detect_urgency body;
            intent := detect_intent body;
            timestamp := timestamp;
            row_date := option_map (fun t => (year t, month t, day t)) timestamp;
            row_hour := option_map hour timestamp
          |}
      end
  end.

(** ** The scanner of [stream_load_messages] *)

Record scanner : Type := {
  buffer : pystr;
  brace_depth : Z;
  in_string : bool;
  escape_next : bool
}.

Definition scanner0 : scanner :=
  {| buffer := []; brace_depth := 0; in_string := false; escape_next := false |}.

(** [f.read(1)] up to the first [[]; [None] when the file has none. *)
Fixpoint seek_array (text : pystr) : option pystr :=
  match text with
  | [] => None
  | c :: rest => if c =? LBRACKET then Some rest else seek_array rest
  end.

Section Scan.
Variable A : Type.
(** What the loop does with a completed buffer (lines 366-448). *)
Variable on_object : A -> pystr -> A.

(** One pass of the [while True] body on the character read; [None] is
    [break]. [continue] and the end of the body both go to the next
    character. *)
Definition scan_char (sc : scanner) (acc : A) (c : Z) : option (scanner * A) :=
  if (c =? RBRACKET) && (brace_depth sc =? 0) then None
  else if (c =? LBRACE) && (brace_depth sc =? 0)
  then Some ({| buffer := [c]; brace_depth := 1;
                in_string := false; escape_next := false |}, acc)
  else if brace_depth sc >? 0 then
    let buf := buffer sc ++ [c] in
    if escape_next sc
    then Some ({| buffer := buf; brace_depth := brace_depth sc;
                  in_string := in_string sc; escape_next := false |}, acc)
    else if (c =? BACKSLASH) && in_string sc
    then Some ({| buffer := buf; brace_depth := brace_depth sc;
                  in_string := in_string sc; escape_next := true |}, acc)
    else if c =? QUOTE
    then Some ({| buffer := buf; brace_depth := brace_depth sc;
                  in_string := negb (in_string sc); escape_next := escape_next sc |}, acc)
    else if negb (in_string sc) then
      if c =? LBRACE
      then Some ({| buffer := buf; brace_depth := brace_depth sc + 1;
                    in_string := in_string sc; escape_next := escape_next sc |}, acc)
      else if c =? RBRACE then
        let depth := brace_depth sc - 1 in
        if depth =? 0
        then Some ({| buffer := []; brace_depth := depth;
                      in_string := in_string sc; escape_next := escape_next sc |},
                   on_object acc buf)
        else Some ({| buffer := buf; brace_depth := depth;
                      in_string := in_string sc; escape_next := escape_next sc |}, acc)
      else Some ({| buffer := buf; brace_depth := brace_depth sc;
                    in_string := in_string sc; escape_next := escape_next sc |}, acc)
    else Some ({| buffer := buf; brace_depth := brace_depth sc;
                  in_string := in_string sc; escape_next := escape_next sc |}, acc)
  else Some (sc, acc).

(** The [while True] loop over the rest of the file; the end of the file
    is a [break] too. *)
Fixpoint scan_loop (sc : scanner) (acc : A) (text : pystr) : A :=
  match text with
  | [] => acc
  | c :: rest =>
      match scan_char sc acc c with
      | None => acc
      | Some (sc', acc') => scan_loop sc' acc' rest
      end
  end.

End Scan.

Arguments scan_char {A} on_object sc acc c.
Arguments scan_loop {A} on_object sc acc text.

(** The candidate buffers in the order the loop completes them. *)
Definition candidates (text : pystr) : list pystr :=
  match seek_array text with
  | None => []
  | Some rest => scan_loop (fun acc buf => acc ++ [buf]) scanner0 [] rest
  end.

(** ** The batch writer *)

Inductive event : Type :=
| NoArray                 (** "Could not find JSON array" *)
| Progress (total : Z)    (** the line printed after a batch commit *)
| Complete (total : Z)    (** "Loading complete!" and the totals *)
| ErrorReported           (** "Error: ..." and the traceback *)
| DatabaseCreated.        (** main's "DATABASE CREATED SUCCESSFULLY!" *)

(** The store behind [conn]: whether it rejects the n-th batch write
    ([executemany] followed by [commit] raises), given the batch. A write
    that is rejected stores nothing: it fails before a row is taken, as
    when the database is locked or the first row cannot be bound. *)
Definition connection : Type := nat -> list row -> bool.

Record loader : Type := {
  batch : list row;
  total_messages : Z;
  commits : list (list row);  (** the batches written and committed, oldest first *)
  writes : nat;               (** batch writes issued so far *)
  printed : list event
}.

Definition loader0 : loader :=
  {| batch := []; total_messages := 0; commits := []; writes := 0; printed := [] |}.

Section Write.
Variable conn : connection.
Variables instances_dict companies_dict : refs.
Variable batch_size : Z.

(** Lines 368-419: [json.loads] and the row; [None] is an exception of
    either, and both [except] clauses are [pass]. A buffer starts with a
    brace, so what decodes is a [dict]. *)
Definition decode_row (buf : pystr) : option row :=
  match json_loads buf with
  | Some (PDict msg) => build_row instances_dict companies_dict msg
  | _ => None
  end.

(** Whether [json.loads] accepts the buffer. *)
Definition decodes (buf : pystr) : bool :=
  match json_loads buf with Some _ => true | None => false end.

(** The rows of the buffers that decode, in the order of the buffers. *)
Definition rows_of (bufs : list pystr) : list row :=
  flat_map (fun buf => match decode_row buf with Some r => [r] | None => [] end) bufs.

(** Lines 366-450: the [try] block run on a completed buffer. A rejected
    write raises inside the block and is caught by [except Exception:
    pass], after the row was appended and before [batch = []]. *)
Definition on_object (st : loader) (buf : pystr) : loader :=
  match decode_row buf with
  | Some r =>
      let batch' := batch st ++ [r] in
      let total := total_messages st + 1 in
      if batch_size <=? Z.of_nat (List.length batch')
      then if conn (writes st) batch'
           then {| batch := batch'; total_messages := total; commits := commits st;
                   writes := S (writes st); printed := printed st |}
           else {| batch := []; total_messages := total;
                   commits := commits st ++ [batch'];
                   writes := S (writes st);
                   printed := printed st ++ [Progress total] |}
      else {| batch := batch'; total_messages := total; commits := commits st;
              writes := writes st; printed := printed st |}
  | None => st
  end.

(** Lines 452-478: the write of what is left, the totals, and the outer
    [except] that reports a failure and returns 0. *)
Definition finish (st : loader) : Z * loader :=
  match batch st with
  | [] => (total_messages st,
           {| batch := []; total_messages := total_messages st; commits := commits st;
              writes := writes st; printed := printed st ++ [Complete (total_messages st)] |})
  | _ :: _ =>
      if conn (writes st) (batch st)
      then (0, {| batch := batch st; total_messages := total_messages st;
                  commits := commits st; writes := S (writes st);
                  printed := printed st ++ [ErrorReported] |})
      else (total_messages st,
            {| batch := batch st; total_messages := total_messages st;
               commits := commits st ++ [batch st]; writes := S (writes st);
               printed := printed st ++ [Complete (total_messages st)] |})
  end.

(** The value returned and the state left behind, for the file content
    [text]. *)
Definition stream_load_messages (text : pystr) : Z * loader :=
  match seek_array text with
  | None => (0, {| batch := []; total_messages := 0; commits := []; writes := 0;
                   printed := [NoArray] |})
  | Some rest => finish (scan_loop on_object scanner0 loader0 rest)
  end.

End Write.

(** Lines 593-600 of [main]: the load with the default batch size, then
    the banner, whatever the load returned. *)
Definition main (conn : connection) (instances_dict companies_dict : refs)
    (text : pystr) : list event :=
  let '(_, st) := stream_load_messages conn instances_dict companies_dict 5000 text in
  printed st ++ [DatabaseCreated].

End Loader.

Arguments scan_char {A} on_object sc acc c.
Arguments scan_loop {A} on_object sc acc text.

(** ** Well-formed input

    The shape of the text the scanner is written for, as a grammar over
    characters. It is wider than JSON (it does not look at what stands
    between the braces beyond strings and nested braces), so every JSON
    array of objects has it: a string literal is a quote, a run of
    characters in which a backslash takes the next character with it, and
    a quote; an object is a brace pair around string literals, nested
    objects and any other characters; an array is an opening bracket,
    objects separated by anything but an opening brace or a closing
    bracket, and a closing bracket. *)

(** The characters of a string literal between its quotes. *)
Inductive str_body : pystr -> Prop :=
| sb_nil : str_body []
| sb_char c s :
    c <> QUOTE -> c <> BACKSLASH -> str_body s -> str_body (c :: s)
| sb_escape c s :
    str_body s -> str_body (BACKSLASH :: c :: s).

(** The text between a brace and the brace that closes it. *)
Inductive obj_body : pystr -> Prop :=
| ob_nil : obj_body []
| ob_char c s :
    c <> LBRACE -> c <> RBRACE -> c <> QUOTE -> obj_body s -> obj_body (c :: s)
| ob_string lit s :
    str_body lit -> obj_body s -> obj_body (QUOTE :: lit ++ QUOTE :: s)
| ob_nested inner s :
    obj_body inner -> obj_body s -> obj_body (LBRACE :: inner ++ RBRACE :: s).

Inductive object_text : pystr -> Prop :=
| ot_braces inner : obj_body inner -> object_text (LBRACE :: inner ++ [RBRACE]).

(** [array_tail objs t]: [t] is what follows the opening bracket of an
    array whose elements are the object texts [objs], in this order. *)
Inductive array_tail : list pystr -> pystr -> Prop :=
| at_close rest : array_tail [] (RBRACKET :: rest)
| at_sep c objs t :
    c <> LBRACE -> c <> RBRACKET -> array_tail objs t -> array_tail objs (c :: t)
| at_object o objs t :
    object_text o -> array_tail objs t -> array_tail (o :: objs) (o ++ t).

Inductive array_text : list pystr -> pystr -> Prop :=
| arr_bracket pre objs t :
    ~ In LBRACKET pre -> array_tail objs t -> array_text objs (pre ++ LBRACKET :: t).

(** Readers of the grammar, to find the derivation of a given text: the
    literal after an opening quote and what follows its closing quote; the
    text after an opening brace up to its partner and what follows it. *)
Fixpoint split_string (s : pystr) : option (pystr * pystr) :=
  match s with
  | [] => None
  | c :: rest =>
      if c =? QUOTE then Some ([], rest)
      else if c =? BACKSLASH
      then match rest with
           | [] => None
           | e :: rest' =>
               option_map (fun '(lit, tail) => (c :: e :: lit, tail)) (split_string rest')
           end
      else option_map (fun '(lit, tail) => (c :: lit, tail)) (split_string rest)
  end.

Fixpoint split_body (fuel : nat) (s : pystr) : option (pystr * pystr) :=
  match fuel with
  | O => None
  | S n =>
      match s with
      | [] => None
      | c :: rest =>
          if c =? RBRACE then Some ([], rest)
          else if c =? QUOTE then
            match split_string rest with
            | Some (lit, tail) =>
                option_map (fun '(body, tail') => (c :: lit ++ QUOTE :: body, tail'))
                  (split_body n tail)
            | None => None
            end
          else if c =? LBRACE then
            match split_body n rest with
            | Some (inner, tail) =>
                option_map (fun '(body, tail') => (c :: inner ++ RBRACE :: body, tail'))
                  (split_body n tail)
            | None => None
            end
          else option_map (fun '(body, tail) => (c :: body, tail)) (split_body n rest)
      end
  end.

(** ** The spec's words, to compare with

    The shape the spec gives a normalized phone (digits, optionally after
    one leading plus), a value without its [@]-suffix, and the hits of a
    keyword list in a text, the identifier held by a field, and JSON
    text as a writer of JSON produces it. *)

Section SpecWords.
Context {RT : Runtime}.

Definition digits_after_optional_plus (p : pystr) : bool :=
  match p with
  | [] => true
  | c :: rest => (re_digit c || (c =? PLUS)) && forallb re_digit rest
  end.

Fixpoint before_at (s : pystr) : pystr :=
  match s with
  | [] => []
  | c :: rest => if c =? AT then [] else c :: before_at rest
  end.

Definition keyword_hits (words : list pystr) (text : pystr) : Z :=
  Z.of_nat (List.length (filter (fun w => contains w text) words)).

(** The identifier a field holds: what [$oid] wraps, or the value itself. *)
Definition id_payload (id_val : pyval) : pyval :=
  match unwrap_oid id_val with
  | Some oid => oid
  | None => id_val
  end.

(** A value written out as JSON text: quotes and backslashes of a string
    escaped, members separated by a comma and a space. *)
Definition escape_char (c : Z) : pystr :=
  if (c =? QUOTE) || (c =? BACKSLASH) then [BACKSLASH; c] else [c].

Definition string_literal (s : pystr) : pystr :=
  QUOTE :: flat_map escape_char s ++ [QUOTE].

Fixpoint join (sep : pystr) (parts : list pystr) : pystr :=
  match parts with
  | [] => []
  | [part] => part
  | part :: rest => part ++ sep ++ join sep rest
  end.

Fixpoint render (v : pyval) : pystr :=
  match v with
  | PNone => u "null"
  | PBool true => u "true"
  | PBool false => u "false"
  | PInt n => py_str (PInt n)
  | PFloat f => py_str (PFloat f)
  | PStr s => string_literal s
  | PList l => LBRACKET :: join (u ", ") (map render l) ++ [RBRACKET]
  | PDict d =>
      LBRACE :: join (u ", ")
                  (map (fun kv => string_literal (fst kv) ++ u ": " ++ render (snd kv)) d)
             ++ [RBRACE]
  end.

Definition render_array (objs : list dict) : pystr :=
  LBRACKET :: join (u ", ") (map (fun d => render (PDict d)) objs) ++ [RBRACKET].

(** A character that is no brace and no quote. *)
Definition plain (c : Z) : bool :=
  negb ((c =? LBRACE) || (c =? RBRACE) || (c =? QUOTE)).

End SpecWords.

(** ** A reference runtime

    Enough of Python's library to run the loader on the examples below: a
    decoder for the JSON subset without fractions, exponents and [\u]
    escapes, ASCII lower-casing, the Arabic-Indic digits as the non-ASCII
    part of [\d], ISO dates of the form [YYYY-MM-DDTHH:MM:SS] with an
    optional [+00:00], and UTC as the local zone. Nothing proved for every
    runtime depends on it. *)

Definition is_json_ws (c : Z) : bool := (c =? 32) || (c =? 9) || (c =? 10) || (c =? 13).

Fixpoint skip_ws (s : pystr) : pystr :=
  match s with
  | [] => []
  | c :: rest => if is_json_ws c then skip_ws rest else s
  end.

Definition unescape (c : Z) : option Z :=
  if (c =? QUOTE) || (c =? BACKSLASH) || (c =? 47) then Some c
  else if c =? 98 then Some 8
  else if c =? 102 then Some 12
  else if c =? 110 then Some 10
  else if c =? 114 then Some 13
  else if c =? 116 then Some 9
  else None.

(** The characters of a string literal after its opening quote. *)
Fixpoint read_string (s acc : pystr) : option (pystr * pystr) :=
  match s with
  | [] => None
  | c :: rest =>
      if c =? QUOTE then Some (rev acc, rest)
      else if c =? BACKSLASH
      then match rest with
           | [] => None
           | e :: rest' =>
               match unescape e with
               | Some x => read_string rest' (x :: acc)
               | None => None
               end
           end
      else if c <? 32 then None
      else read_string rest (c :: acc)
  end.

Definition is_digit (c : Z) : bool := (48 <=? c) && (c <=? 57).

Fixpoint read_digits (s : pystr) (acc : Z) : Z * pystr :=
  match s with
  | [] => (acc, [])
  | c :: rest => if is_digit c then read_digits rest (10 * acc + (c - 48)) else (acc, s)
  end.

Definition read_nat (s : pystr) : option (Z * pystr) :=
  match s with
  | [] => None
  | c :: rest =>
      if c =? 48 then Some (0, rest)
      else if is_digit c then Some (read_digits s 0)
      else None
  end.

Definition read_int (s : pystr) : option (Z * pystr) :=
  let signed :=
    match s with
    | c :: rest =>
        if c =? 45
        then option_map (fun '(n, rest') => (- n, rest')) (read_nat rest)
        else read_nat s
    | [] => None
    end in
  match signed with
  | Some (n, c :: rest) =>
      if (c =? 46) || (c =? 101) || (c =? 69) then None else Some (n, c :: rest)
  | other => other
  end.

Fixpoint dict_set (d : dict) (k : pystr) (v : pyval) : dict :=
  match d with
  | [] => [(k, v)]
  | (k', v') :: d' =>
      if str_eqb k' k then (k', v) :: d' else (k', v') :: dict_set d' k v
  end.

Fixpoint read_value (fuel : nat) (s : pystr) : option (pyval * pystr) :=
  match fuel with
  | O => None
  | S n =>
      match skip_ws s with
      | [] => None
      | c :: rest =>
          if c =? LBRACE then
            match skip_ws rest with
            | c' :: rest' =>
                if c' =? RBRACE then Some (PDict [], rest')
                else read_members n (c' :: rest') []
            | [] => None
            end
          else if c =? LBRACKET then
            match skip_ws rest with
            | c' :: rest' =>
                if c' =? RBRACKET then Some (PList [], rest')
                else read_elements n (c' :: rest') []
            | [] => None
            end
          else if c =? QUOTE
          then option_map (fun '(str, rest') => (PStr str, rest')) (read_string rest [])
          else if startswith (u "true") (c :: rest) then Some (PBool true, skipn 4 (c :: rest))
          else if startswith (u "false") (c :: rest) then Some (PBool false, skipn 5 (c :: rest))
          else if startswith (u "null") (c :: rest) then Some (PNone, skipn 4 (c :: rest))
          else option_map (fun '(k, rest') => (PInt k, rest')) (read_int (c :: rest))
      end
  end
with read_members (fuel : nat) (s : pystr) (acc : dict) : option (pyval * pystr) :=
  match fuel with
  | O => None
  | S n =>
      match skip_ws s with
      | c :: rest =>
          if c =? QUOTE then
            match read_string rest [] with
            | Some (k, rest1) =>
                match skip_ws rest1 with
                | colon :: rest2 =>
                    if colon =? 58 then
                      match read_value n rest2 with
                      | Some (v, rest3) =>
                          match skip_ws rest3 with
                          | c3 :: rest4 =>
                              if c3 =? 44 then read_members n rest4 (dict_set acc k v)
                              else if c3 =? RBRACE then Some (PDict (dict_set acc k v), rest4)
                              else None
                          | [] => None
                          end
                      | None => None
                      end
                    else None
                | [] => None
                end
            | None => None
            end
          else None
      | [] => None
      end
  end
with read_elements (fuel : nat) (s : pystr) (acc : list pyval) : option (pyval * pystr) :=
  match fuel with
  | O => None
  | S n =>
      match read_value n s with
      | Some (v, rest) =>
          match skip_ws rest with
          | c :: rest' =>
              if c =? 44 then read_elements n rest' (acc ++ [v])
              else if c =? RBRACKET then Some (PList (acc ++ [v]), rest')
              else None
          | [] => None
          end
      | None => None
      end
  end.

Definition reference_loads (s : pystr) : option pyval :=
  match read_value (S (List.length s)) s with
  | Some (v, rest) => match skip_ws rest with [] => Some v | _ => None end
  | None => None
  end.

Definition ascii_lower (s : pystr) : pystr :=
  map (fun c => if (65 <=? c) && (c <=? 90) then c + 32 else c) s.

Definition arabic_indic_digit (c : Z) : bool :=
  ((1632 <=? c) && (c <=? 1641)) || ((1776 <=? c) && (c <=? 1785)).

Definition abbreviated_str (v : pyval) : pystr :=
  match v with
  | PList _ => u "[...]"
  | PDict _ => u "{...}"
  | _ => u "<float>"
  end.

(** [n] decimal digits of [s] from position [i]. *)
Fixpoint number_at (s : pystr) (i n : nat) (acc : Z) : option Z :=
  match n with
  | O => Some acc
  | S n' =>
      match nth_error s i with
      | Some c => if is_digit c then number_at s (S i) n' (10 * acc + (c - 48)) else None
      | None => None
      end
  end.

Definition days_in_month (y m : Z) : Z :=
  if m =? 2
  then if ((y mod 4 =? 0) && negb (y mod 100 =? 0)) || (y mod 400 =? 0) then 29 else 28
  else if (m =? 4) || (m =? 6) || (m =? 9) || (m =? 11) then 30 else 31.

Definition reference_fromisoformat (s : pystr) : option datetime :=
  if (List.length s =? 19)%nat || ((List.length s =? 25)%nat && str_eqb (skipn 19 s) (u "+00:00"))
  then
    match number_at s 0 4 0, number_at s 5 2 0, number_at s 8 2 0,
          number_at s 11 2 0, number_at s 14 2 0, number_at s 17 2 0 with
    | Some y, Some m, Some d, Some hh, Some mm, Some ss =>
        if str_eqb (map (fun i => nth i s 0) [4; 7; 10; 13; 16]%nat) (u "--T::")
           && (1 <=? y) && (1 <=? m) && (m <=? 12) && (1 <=? d) && (d <=? days_in_month y m)
           && (hh <=? 23) && (mm <=? 59) && (ss <=? 59)
        then Some {| year := y; month := m; day := d;
                     hour := hh; minute := mm; second := ss; microsecond := 0 |}
        else None
    | _, _, _, _, _, _ => None
    end
  else None.

#[export] Instance reference_runtime : Runtime := {|
  str_lower := ascii_lower;
  unicode_Nd := arabic_indic_digit;
  str_other := abbreviated_str;
  json_loads := reference_loads;
  fromisoformat := reference_fromisoformat;
  utcoffset := fun _ => 0;
  str_lower_nil := eq_refl;
  str_other_nonempty := ltac:(intros v; destruct v; discriminate)
|}.

(** A store that takes every write, one that refuses the first only, and
    empty reference tables. *)
Definition accepting : connection := fun _ _ => false.

Definition rejecting_once : connection := fun n _ => (n =? 0)%nat.

Definition no_refs : refs := fun _ => None.

(** What [sqlite3] binds as a parameter: [None], an [int] of 64 bits, a
    float, a [str]; a list or a dict raises. The columns that hold a value
    taken from the message as it is are the ones that can fail. *)
Definition sqlite_binds (v : pyval) : bool :=
  match v with
  | PList _ | PDict _ => false
  | PInt n => (- 2 ^ 63 <=? n) && (n <? 2 ^ 63)
  | _ => true
  end.

Definition row_binds (r : row) : bool :=
  forallb sqlite_binds
    [message_id r; type_ r; status r; body r;
     instance_id r; instance_name r; company_id r; company_name r].

(** A store that refuses a batch holding a row it cannot bind. *)
Definition sqlite_store : connection := fun _ rows => negb (forallb row_binds rows).

(** ** Input that stops early

    [array_items objs t]: a stretch of the content of an array that holds
    the object texts [objs] whole, in this order, with separators around
    them, and no closing bracket; [cut_object p]: a text that stops inside
    an object, a proper beginning of an object text. *)
Inductive array_items : list pystr -> pystr -> Prop :=
| ai_nil : array_items [] []
| ai_sep c objs t :
    c <> LBRACE -> c <> RBRACKET -> array_items objs t -> array_items objs (c :: t)
| ai_object o objs t :
    object_text o -> array_items objs t -> array_items (o :: objs) (o ++ t).

Definition cut_object (p : pystr) : Prop :=
  exists rest, rest <> [] /\ object_text (p ++ rest).

(** A buffer between a pair of braces, and a buffer that stands in a text
    as it is. *)
Definition braced (buf : pystr) : Prop :=
  exists inner, buf = LBRACE :: inner ++ [RBRACE].

Definition piece_of (text buf : pystr) : Prop :=
  exists before after, text = before ++ buf ++ after.

(** ** The files of [main]

    Lines 494-530: the listing of the folder cut down to the names that
    end in [.json], the file picked by its number in the menu, and the
    reference files found by their names. *)

Section Files.
Context {RT : Runtime}.

(** [s.endswith(suffix)] *)
Definition endswith (suffix s : pystr) : bool :=
  startswith (rev suffix) (rev s).

Definition json_files (listing : list pystr) : list pystr :=
  filter (endswith (u ".json")) listing.

(** [l[i]]: an index below zero counts from the end; [None] is
    [IndexError]. *)
Definition py_index {A : Type} (l : list A) (i : Z) : option A :=
  let n := Z.of_nat (List.length l) in
  if i <? 0
  then if i + n <? 0 then None else nth_error l (Z.to_nat (i + n))
  else nth_error l (Z.to_nat i).

(** [json_files[int(msg_choice) - 1]] under its bare [except]; the number
    read by [int] is given, [None] when [int] raises. [None] is "Invalid
    selection!". *)
Definition select_messages_file (files : list pystr) (msg_choice : option Z)
    : option pystr :=
  match msg_choice with
  | Some k => py_index files (k - 1)
  | None => None
  end.

Record detected : Type := {
  companies_file : option pystr;
  instances_file : option pystr;
  broadcasts_file : option pystr
}.

(** The body of the loop of lines 521-530. *)
Definition detect_file (messages_file : pystr) (found : detected) (f : pystr) : detected :=
  if str_eqb f messages_file then found
  else
    let f_lower := str_lower f in
    if contains (u "compan") f_lower
    then {| companies_file := Some f; instances_file := instances_file found;
            broadcasts_file := broadcasts_file found |}
    else if contains (u "instance") f_lower
    then {| companies_file := companies_file found; instances_file := Some f;
            broadcasts_file := broadcasts_file found |}
    else if contains (u "broadcast") f_lower
    then {| companies_file := companies_file found; instances_file := instances_file found;
            broadcasts_file := Some f |}
    else found.

Definition detect_files (files : list pystr) (messages_file : pystr) : detected :=
  fold_left (detect_file messages_file) files
    {| companies_file := None; instances_file := None; broadcasts_file := None |}.

(** ** The reference data of [main] *)

(** [load_json_file] on the content of the file; [None] is a file that
    cannot be opened or read as UTF-8. Every failure gives the empty
    list. *)
Definition load_json_file (content : option pystr) : pyval :=
  match content with
  | Some text =>
      match json_loads text with
      | Some data => data
      | None => PList []
      end
  | None => PList []
  end.

(** [for c in data]; [None] is the [TypeError] of a value that cannot be
    iterated. A dict gives its keys, a string its characters. *)
Definition py_iter (data : pyval) : option (list pyval) :=
  match data with
  | PList l => Some l
  | PDict d => Some (map (fun kv => PStr (fst kv)) d)
  | PStr s => Some (map (fun c => PStr [c]) s)
  | _ => None
  end.

(** [extract_id(c)] on whatever the file holds; [None] is the [TypeError]
    of [key not in obj] on a number, and of [obj[key]] on a string or a
    list that holds ['_id']. *)
Definition extract_id_of (c : pyval) : option pyval :=
  if negb (truthy c) then Some PNone
  else match c with
       | PDict d => Some (extract_id d (u "_id"))
       | PStr s => if contains (u "_id") s then None else Some PNone
       | PList l =>
           if existsb (fun e => match e with
                                | PStr s => str_eqb s (u "_id")
                                | _ => false
                                end) l
           then None else Some PNone
       | _ => None
       end.

(** What main asks of the store before the messages are loaded. *)
Inductive store_op : Type :=
| InsertCompany (id name : pyval) (data : dict)
| InsertInstance (id name company_id phone : pyval) (data : dict)
| InsertBroadcast (id name : pyval) (data : dict)
| Commit.

(** Whether the store raises on the n-th of these operations. *)
Definition reference_store : Type := nat -> store_op -> bool.

Definition company_op (cid : pyval) (c : dict) : store_op :=
  InsertCompany cid (get_default c (u "name") (PStr [])) c.

Definition instance_op (iid : pyval) (i : dict) : store_op :=
  InsertInstance iid (get_default i (u "name") (PStr []))
    (extract_foreign_key i (map u ["company"; "companyId"]))
    (get_default i (u "phone") (PStr [])) i.

Definition broadcast_op (bid : pyval) (b : dict) : store_op :=
  InsertBroadcast bid (get_default b (u "name") (PStr [])) b.

(** One pass of a loop of lines 559-563, 568-573, 578-582; [None] is an
    exception, which nothing catches. An identifier that is truthy comes
    from a dict. *)
Definition insert_one (store : reference_store) (op : pyval -> dict -> store_op)
    (st : option nat) (c : pyval) : option nat :=
  match st with
  | None => None
  | Some n =>
      match extract_id_of c with
      | None => None
      | Some cid =>
          if truthy cid
          then match c with
               | PDict d => if store n (op cid d) then None else Some (S n)
               | _ => None
               end
          else Some n
      end
  end.

(** A block of lines 557-583: the file loaded, its objects inserted, the
    commit. Without a file the variable stays the empty list and the store
    is not asked anything. *)
Definition insert_file (store : reference_store) (op : pyval -> dict -> store_op)
    (file : option (option pystr)) (n : nat) : option (pyval * nat) :=
  match file with
  | None => Some (PList [], n)
  | Some content =>
      let data := load_json_file content in
      match py_iter data with
      | None => None
      | Some objs =>
          match fold_left (insert_one store op) objs (Some n) with
          | None => None
          | Some n' => if store n' Commit then None else Some (data, S n')
          end
      end
  end.

(** [k1 == k2] for two keys of a dict: numbers by their value, whatever
    their type, strings by their characters. *)
Definition float_is_int (f : spec_float) (n : Z) : bool :=
  match f with
  | S754_zero _ => n =? 0
  | S754_finite s m e =>
      if 0 <=? e then cond_Zopp s (Zpos m) * 2 ^ e =? n
      else cond_Zopp s (Zpos m) =? n * 2 ^ (- e)
  | _ => false
  end.

Definition as_num (v : pyval) : option pynum :=
  match v with
  | PBool b => Some (NInt (Z.b2z b))
  | PInt n => Some (NInt n)
  | PFloat f => Some (NFloat f)
  | _ => None
  end.

Definition key_eqb (a b : pyval) : bool :=
  match as_num a, as_num b with
  | Some (NInt m), Some (NInt n) => m =? n
  | Some (NFloat f), Some (NFloat g) => SFeqb f g
  | Some (NInt n), Some (NFloat f) | Some (NFloat f), Some (NInt n) => float_is_int f n
  | None, None =>
      match a, b with
      | PStr s, PStr t => str_eqb s t
      | PNone, PNone => true
      | _, _ => false
      end
  | _, _ => false
  end.

(** A dict whose keys are identifiers, in insertion order: [d[k] = v]
    replaces the value of an equal key where it stands, [d.get(k)] takes
    the entry of an equal key. *)
Definition table : Type := list (pyval * dict).

Fixpoint table_set (t : table) (k : pyval) (v : dict) : table :=
  match t with
  | [] => [(k, v)]
  | (k', v') :: t' =>
      if key_eqb k' k then (k', v) :: t' else (k', v') :: table_set t' k v
  end.

Fixpoint table_get (t : table) (k : pyval) : option dict :=
  match t with
  | [] => None
  | (k', v) :: t' => if key_eqb k' k then Some v else table_get t' k
  end.

(** One object of [{extract_id(c): c for c in data if extract_id(c)}];
    [None] is an exception: of [extract_id], or the [TypeError] of a key
    that is a list or a dict. *)
Definition lookup_entry (acc : option table) (c : pyval) : option table :=
  match acc with
  | None => None
  | Some t =>
      match extract_id_of c with
      | None => None
      | Some cid =>
          if truthy cid
          then if hashable cid
               then match c with
                    | PDict d => Some (table_set t cid d)
                    | _ => None
                    end
               else None
          else Some t
      end
  end.

Definition lookup_dict (data : pyval) : option table :=
  match py_iter data with
  | None => None
  | Some objs => fold_left lookup_entry objs (Some [])
  end.

(** Lines 553-587: the three reference files into the store, then the two
    lookup dictionaries, companies first. [None] is an exception, which
    ends [main] before a message is read. *)
Definition reference_data (store : reference_store)
    (companies_content instances_content broadcasts_content : option (option pystr))
    : option (table * table) :=
  match insert_file store company_op companies_content 0 with
  | None => None
  | Some (companies, n1) =>
      match insert_file store instance_op instances_content n1 with
      | None => None
      | Some (instances, n2) =>
          match insert_file store broadcast_op broadcasts_content n2 with
          | None => None
          | Some (_, _) =>
              match lookup_dict companies with
              | None => None
              | Some companies_dict =>
                  match lookup_dict instances with
                  | None => None
                  | Some instances_dict => Some (companies_dict, instances_dict)
                  end
              end
          end
      end
  end.

(** Lines 553-600: the reference data, then the messages and the banner;
    [None] is a run that an exception ended. *)
Definition main_with_references (store : reference_store) (conn : connection)
    (companies_content instances_content broadcasts_content : option (option pystr))
    (text : pystr) : option (list event) :=
  match reference_data store companies_content instances_content broadcasts_content with
  | None => None
  | Some (companies_dict, instances_dict) =>
      Some (main conn (table_get instances_dict) (table_get companies_dict) text)
  end.

End Files.

(** A store that takes every insert of reference data. *)
Definition accepting_references : reference_store := fun _ _ => false.

(** ** The lookups of the customer phone that can find something

    [extract_customer_phone] with the last loop going over ['message'] and
    ['chat'] only, to compare with the source, which goes on to
    ['contact'] and ['sender']. *)
Definition find_phone_message_chat (msg : dict) : pyval :=
  let phone := first_truthy msg possible_fields PNone in
  let phone :=
    if negb (truthy phone)
    then match dict_get msg (u "key") with
         | Some (PDict key) => first_truthy key key_fields phone
         | _ => phone
         end
    else phone in
  if negb (truthy phone) then fold_left (try_parent msg) (map u ["message"; "chat"]) phone
  else phone.

(** ** What a label says

    A keyword list has a hit in a text when one of its keywords occurs in
    it; [first_match table text fallback label]: [label] stands in the
    table with a hit, behind entries that have none, or it is the fallback
    and no entry has a hit. *)
Definition hit (text : pystr) (keywords : list pystr) : bool :=
  existsb (fun keyword => contains keyword text) keywords.

Definition first_match (table : list (pystr * list pystr)) (text fallback label : pystr)
    : Prop :=
  (exists before keywords after,
     table = before ++ (label, keywords) :: after
     /\ hit text keywords = true
     /\ Forall (fun entry => hit text (snd entry) = false) before)
  \/ (label = fallback /\ Forall (fun entry => hit text (snd entry) = false) table).

(** ** What a lookup dictionary holds

    The value of the variable a reference file is loaded into, the
    objects among the elements of a file, and the test that the [_id] of
    an object is the string [s]. *)
Section ReferenceWords.
Context {RT : Runtime}.

Definition file_data (file : option (option pystr)) : pyval :=
  match file with
  | None => PList []
  | Some content => load_json_file content
  end.

Definition dicts_of (objs : list pyval) : list dict :=
  flat_map (fun c => match c with PDict d => [d] | _ => [] end) objs.

Definition has_id (s : pystr) (d : dict) : bool :=
  match extract_id d (u "_id") with
  | PStr t => str_eqb t s
  | _ => false
  end.

End ReferenceWords.

(** * Results *)

(** ** The scanner on well-formed input *)

Ltac char_cases :=
  unfold RBRACKET, LBRACKET, LBRACE, RBRACE, QUOTE, BACKSLASH in *;
  repeat match goal with
         | |- context [Z.eqb ?a ?b] =>
             destruct (Z.eqb_spec a b); try lia; cbn [andb orb negb]
         | |- context [Z.gtb ?a ?b] =>
             destruct (Z.gtb_spec a b); try lia
         end.

Ltac same_buffer :=
  match goal with
  | |- scan_loop _ ?x _ _ = scan_loop _ ?y _ _ =>
      replace x with y; [reflexivity | f_equal; repeat rewrite <- app_assoc; reflexivity]
  end.

Ltac scan_step := cbn [scan_loop]; unfold scan_char; cbn [buffer brace_depth in_string escape_next andb negb].

(** Derivations of the grammar for a text given in full. *)
Ltac derive_string :=
  repeat first
    [ apply sb_nil
    | apply sb_escape
    | apply sb_char; [ unfold QUOTE; lia | unfold BACKSLASH; lia | ] ].

Ltac derive_body :=
  repeat first
    [ apply ob_nil
    | apply ob_char; [ unfold LBRACE; lia | unfold RBRACE; lia | unfold QUOTE; lia | ]
    | lazymatch goal with
      | |- obj_body (_ :: ?rest) =>
          let r := eval vm_compute in (split_string rest) in
          lazymatch r with
          | Some (?lit, ?tail) =>
              change (obj_body (QUOTE :: lit ++ QUOTE :: tail));
              apply ob_string; [ derive_string | ]
          end
      end
    | lazymatch goal with
      | |- obj_body (_ :: ?rest) =>
          let r := eval vm_compute in (split_body (List.length rest) rest) in
          lazymatch r with
          | Some (?inner, ?tail) =>
              change (obj_body (LBRACE :: inner ++ RBRACE :: tail));
              apply ob_nested
          end
      end ].

Ltac derive_object :=
  lazymatch goal with
  | |- object_text (_ :: ?rest) =>
      let inner := eval vm_compute in (removelast rest) in
      change (object_text (LBRACE :: inner ++ [RBRACE]));
      apply ot_braces; derive_body
  end.

Ltac derive_tail :=
  repeat first
    [ apply at_close
    | apply at_sep; [ unfold LBRACE; lia | unfold RBRACKET; lia | ]
    | lazymatch goal with
      | |- array_tail (?o :: ?objs) ?text =>
          let t := eval vm_compute in (skipn (List.length o) text) in
          change (array_tail (o :: objs) (o ++ t));
          apply at_object; [ derive_object | ]
      end ].

Ltac derive_array :=
  vm_compute;
  lazymatch goal with
  | |- array_text ?objs ?text =>
      let r := eval vm_compute in (seek_array text) in
      lazymatch r with
      | Some ?t =>
          let pre := eval vm_compute in
            (firstn (List.length text - S (List.length t)) text) in
          change (array_text objs (pre ++ LBRACKET :: t));
          apply arr_bracket;
          [ cbn [In]; unfold LBRACKET; intuition lia | derive_tail ]
      end
  end.

Section ScanFacts.
Variable A : Type.
Variable h : A -> pystr -> A.

Lemma step_escaped b d s acc c rest :
  0 < d ->
  scan_loop h {| buffer := b; brace_depth := d; in_string := s; escape_next := true |}
    acc (c :: rest)
  = scan_loop h {| buffer := b ++ [c]; brace_depth := d; in_string := s;
                   escape_next := false |} acc rest.
Proof. intros Hd. scan_step. char_cases; reflexivity. Qed.

Lemma step_backslash b d acc rest :
  0 < d ->
  scan_loop h {| buffer := b; brace_depth := d; in_string := true; escape_next := false |}
    acc (BACKSLASH :: rest)
  = scan_loop h {| buffer := b ++ [BACKSLASH]; brace_depth := d; in_string := true;
                   escape_next := true |} acc rest.
Proof. intros Hd. scan_step. char_cases; reflexivity. Qed.

Lemma step_quote b d s acc rest :
  0 < d ->
  scan_loop h {| buffer := b; brace_depth := d; in_string := s; escape_next := false |}
    acc (QUOTE :: rest)
  = scan_loop h {| buffer := b ++ [QUOTE]; brace_depth := d; in_string := negb s;
                   escape_next := false |} acc rest.
Proof. intros Hd. scan_step. destruct s; char_cases; reflexivity. Qed.

Lemma step_in_string b d acc c rest :
  0 < d -> c <> QUOTE -> c <> BACKSLASH ->
  scan_loop h {| buffer := b; brace_depth := d; in_string := true; escape_next := false |}
    acc (c :: rest)
  = scan_loop h {| buffer := b ++ [c]; brace_depth := d; in_string := true;
                   escape_next := false |} acc rest.
Proof. intros Hd Hq Hb. scan_step. char_cases; reflexivity. Qed.

Lemma step_plain b d acc c rest :
  0 < d -> c <> LBRACE -> c <> RBRACE -> c <> QUOTE ->
  scan_loop h {| buffer := b; brace_depth := d; in_string := false; escape_next := false |}
    acc (c :: rest)
  = scan_loop h {| buffer := b ++ [c]; brace_depth := d; in_string := false;
                   escape_next := false |} acc rest.
Proof. intros Hd Ho Hc Hq. scan_step. char_cases; reflexivity. Qed.

Lemma step_open b d acc rest :
  0 < d ->
  scan_loop h {| buffer := b; brace_depth := d; in_string := false; escape_next := false |}
    acc (LBRACE :: rest)
  = scan_loop h {| buffer := b ++ [LBRACE]; brace_depth := d + 1; in_string := false;
                   escape_next := false |} acc rest.
Proof. intros Hd. scan_step. char_cases; reflexivity. Qed.

Lemma step_close_inner b d acc rest :
  0 < d ->
  scan_loop h {| buffer := b; brace_depth := d + 1; in_string := false;
                 escape_next := false |} acc (RBRACE :: rest)
  = scan_loop h {| buffer := b ++ [RBRACE]; brace_depth := d; in_string := false;
                   escape_next := false |} acc rest.
Proof.
  intros Hd. scan_step. char_cases.
  replace (d + 1 - 1) with d by lia. reflexivity.
Qed.

Lemma step_close_outer b acc rest :
  scan_loop h {| buffer := b; brace_depth := 1; in_string := false; escape_next := false |}
    acc (RBRACE :: rest)
  = scan_loop h scanner0 (h acc (b ++ [RBRACE])) rest.
Proof. scan_step. reflexivity. Qed.

Lemma step_start b s e acc rest :
  scan_loop h {| buffer := b; brace_depth := 0; in_string := s; escape_next := e |}
    acc (LBRACE :: rest)
  = scan_loop h {| buffer := [LBRACE]; brace_depth := 1; in_string := false;
                   escape_next := false |} acc rest.
Proof. scan_step. reflexivity. Qed.

Lemma step_between sc acc c rest :
  brace_depth sc = 0 -> c <> LBRACE -> c <> RBRACKET ->
  scan_loop h sc acc (c :: rest) = scan_loop h sc acc rest.
Proof.
  intros Hd Ho Hc. cbn [scan_loop]. unfold scan_char. rewrite Hd.
  char_cases; reflexivity.
Qed.

Lemma step_end sc acc rest :
  brace_depth sc = 0 -> scan_loop h sc acc (RBRACKET :: rest) = acc.
Proof. intros Hd. cbn [scan_loop]. unfold scan_char. rewrite Hd. reflexivity. Qed.

(** Inside a string literal nothing but its closing quote is looked at. *)
Lemma scan_string lit :
  str_body lit ->
  forall b d acc rest, 0 < d ->
  scan_loop h {| buffer := b; brace_depth := d; in_string := true; escape_next := false |}
    acc (lit ++ QUOTE :: rest)
  = scan_loop h {| buffer := b ++ lit ++ [QUOTE]; brace_depth := d; in_string := false;
                   escape_next := false |} acc rest.
Proof.
  induction 1 as [| c s Hq Hb Hs IH | c s Hs IH]; intros b d acc rest Hd.
  - cbn [app]. now rewrite step_quote.
  - cbn [app]. rewrite step_in_string by assumption.
    rewrite IH by assumption. same_buffer.
  - cbn [app]. rewrite step_backslash, step_escaped by assumption.
    rewrite IH by assumption. same_buffer.
Qed.

(** Between a brace and its partner the depth comes back to where it was. *)
Lemma scan_body body :
  obj_body body ->
  forall b d acc rest, 0 < d ->
  scan_loop h {| buffer := b; brace_depth := d; in_string := false; escape_next := false |}
    acc (body ++ rest)
  = scan_loop h {| buffer := b ++ body; brace_depth := d; in_string := false;
                   escape_next := false |} acc rest.
Proof.
  induction 1 as [| c s Ho Hc Hq Hs IH | lit s Hlit Hs IH | inner s Hin IHin Hs IH];
    intros b d acc rest Hd.
  - now rewrite app_nil_r.
  - cbn [app]. rewrite step_plain by assumption.
    rewrite IH by assumption. same_buffer.
  - cbn [app]. rewrite <- app_assoc. cbn [app].
    rewrite step_quote by assumption. cbn [negb].
    rewrite scan_string by assumption.
    rewrite IH by assumption. same_buffer.
  - cbn [app]. rewrite <- app_assoc. cbn [app].
    rewrite step_open by assumption.
    rewrite IHin by lia.
    rewrite step_close_inner by assumption.
    rewrite IH by assumption. same_buffer.
Qed.

(** A whole object, met between objects, is handed over once, whole. *)
Lemma scan_object o :
  object_text o ->
  forall b s e acc rest,
  scan_loop h {| buffer := b; brace_depth := 0; in_string := s; escape_next := e |}
    acc (o ++ rest)
  = scan_loop h scanner0 (h acc o) rest.
Proof.
  intros [inner Hin] b s e acc rest.
  cbn [app]. rewrite <- app_assoc. cbn [app].
  rewrite step_start.
  rewrite scan_body by (assumption || lia).
  now rewrite step_close_outer.
Qed.

Lemma scan_array objs t :
  array_tail objs t ->
  forall acc, scan_loop h scanner0 acc t = fold_left h objs acc.
Proof.
  induction 1 as [rest | c objs t Ho Hc Ht IH | o objs t Ho Ht IH]; intros acc.
  - now rewrite step_end.
  - rewrite step_between by (assumption || reflexivity). apply IH.
  - unfold scanner0 at 1. rewrite scan_object by assumption. apply IH.
Qed.

(** Whatever the text, the loop hands its handler the candidate buffers,
    in the order it completes them, and nothing else: the handler has no
    say in where a buffer starts or ends. *)
Lemma scan_char_collect sc l acc c :
  scan_char h sc (fold_left h l acc) c
  = option_map (fun '(sc', l') => (sc', fold_left h l' acc))
      (scan_char (fun l buf => l ++ [buf]) sc l c).
Proof.
  unfold scan_char.
  repeat match goal with
         | |- context [if ?b then _ else _] => destruct b
         end;
    cbn [option_map]; rewrite ?fold_left_app; reflexivity.
Qed.

Lemma scan_loop_collect text :
  forall sc l acc,
  scan_loop h sc (fold_left h l acc) text
  = fold_left h (scan_loop (fun l buf => l ++ [buf]) sc l text) acc.
Proof.
  induction text as [| c text IH]; intros sc l acc; cbn [scan_loop].
  - reflexivity.
  - rewrite scan_char_collect.
    destruct (scan_char (fun l buf => l ++ [buf]) sc l c) as [[sc' l'] |];
      cbn [option_map]; [ apply IH | reflexivity ].
Qed.

End ScanFacts.

Lemma seek_array_prefix pre t :
  ~ In LBRACKET pre -> seek_array (pre ++ LBRACKET :: t) = Some t.
Proof.
  induction pre as [| c pre IH]; intros Hpre; cbn [app seek_array].
  - now rewrite Z.eqb_refl.
  - destruct (Z.eqb_spec c LBRACKET) as [-> | _].
    + exfalso. apply Hpre. now left.
    + apply IH. intros Hin. apply Hpre. now right.
Qed.

Lemma fold_left_snoc (B : Type) (l acc : list B) :
  fold_left (fun a x => a ++ [x]) l acc = acc ++ l.
Proof.
  revert acc. induction l as [| x l IH]; intros acc; cbn [fold_left].
  - now rewrite app_nil_r.
  - rewrite IH, <- app_assoc. reflexivity.
Qed.

(** C1. For every well-formed input (an array of objects, whatever the
    nesting depth of the braces, whatever braces, brackets, quotes and
    escaped characters stand inside string literals), the scanner
    completes exactly the texts of the top-level elements, one buffer per
    element, in order. *)
Theorem scanner_emits_each_object objs text :
  array_text objs text -> candidates text = objs.
Proof.
  intros [pre objs' t Hpre Ht]. unfold candidates.
  rewrite seek_array_prefix by assumption.
  rewrite (scan_array _ _ _ _ Ht). apply fold_left_snoc.
Qed.

(** Three objects: braces nested two deep, a string holding braces, a
    bracket and an escaped quote, a string ending in an escaped
    backslash, and an empty object. *)
Lemma scanner_emits_each_object_witness :
  array_text
    [js "{'a': {'b': '}{\']'}}"; js "{'c': '\\'}"; js "{}"]
    (js " [{'a': {'b': '}{\']'}}, {'c': '\\'}, {}] ")
  /\ candidates (js " [{'a': {'b': '}{\']'}}, {'c': '\\'}, {}] ")
     = [js "{'a': {'b': '}{\']'}}"; js "{'c': '\\'}"; js "{}"].
Proof.
  assert (H : array_text
                [js "{'a': {'b': '}{\']'}}"; js "{'c': '\\'}"; js "{}"]
                (js " [{'a': {'b': '}{\']'}}, {'c': '\\'}, {}] "))
    by derive_array.
  split; [ exact H | exact (scanner_emits_each_object _ _ H) ].
Defined.

(** ** The loader on well-formed input *)

Section LoadFacts.
Context {RT : Runtime}.
Variable conn : connection.
Variables instances_dict companies_dict : refs.
Variable batch_size : Z.

#[local] Abbreviation load := (stream_load_messages conn instances_dict companies_dict batch_size).
#[local] Abbreviation handle := (on_object conn instances_dict companies_dict batch_size).
#[local] Abbreviation decode := (decode_row instances_dict companies_dict).

(** The loader works through the objects of the array one by one. *)
Lemma stream_load_messages_objects objs text :
  array_text objs text ->
  load text = finish conn (fold_left handle objs loader0).
Proof.
  intros [pre objs' t Hpre Ht]. unfold stream_load_messages.
  rewrite seek_array_prefix by assumption.
  now rewrite (scan_array _ _ _ _ Ht).
Qed.

(** On any text, the load is the batch writer run over the candidate
    buffers. *)
Lemma stream_load_messages_candidates text :
  load text
  = match seek_array text with
    | None => (0, {| batch := []; total_messages := 0; commits := []; writes := 0;
                     printed := [NoArray] |})
    | Some _ => finish conn (fold_left handle (candidates text) loader0)
    end.
Proof.
  unfold stream_load_messages, candidates.
  destruct (seek_array text) as [rest |]; [ | reflexivity ].
  f_equal. apply (scan_loop_collect _ handle rest scanner0 [] loader0).
Qed.

Lemma on_object_undecodable st buf :
  decode buf = None -> handle st buf = st.
Proof. intros H. unfold on_object. now rewrite H. Qed.

Lemma json_error_undecodable buf :
  json_loads buf = None -> decode buf = None.
Proof. intros H. unfold decode_row. now rewrite H. Qed.

Lemma fold_skips_undecodable objs st :
  fold_left handle (filter decodes objs) st = fold_left handle objs st.
Proof.
  revert st. induction objs as [| o objs IH]; intros st; cbn [filter fold_left].
  - reflexivity.
  - unfold decodes at 1. destruct (json_loads o) eqn:Ho.
    + cbn [fold_left]. apply IH.
    + rewrite on_object_undecodable by (apply json_error_undecodable; exact Ho). apply IH.
Qed.

Lemma on_object_kept st buf r :
  decode buf = Some r ->
  Z.of_nat (List.length (batch st ++ [r])) < batch_size ->
  handle st buf
  = {| batch := batch st ++ [r]; total_messages := total_messages st + 1;
       commits := commits st; writes := writes st; printed := printed st |}.
Proof.
  intros D Hlen. unfold on_object. rewrite D. cbv zeta.
  destruct (Z.leb_spec batch_size (Z.of_nat (List.length (batch st ++ [r]))));
    [ lia | reflexivity ].
Qed.

Lemma on_object_written st buf r :
  decode buf = Some r ->
  batch_size <= Z.of_nat (List.length (batch st ++ [r])) ->
  conn (writes st) (batch st ++ [r]) = false ->
  handle st buf
  = {| batch := []; total_messages := total_messages st + 1;
       commits := commits st ++ [batch st ++ [r]]; writes := S (writes st);
       printed := printed st ++ [Progress (total_messages st + 1)] |}.
Proof.
  intros D Hlen Hconn. unfold on_object. rewrite D. cbv zeta.
  destruct (Z.leb_spec batch_size (Z.of_nat (List.length (batch st ++ [r]))));
    [ now rewrite Hconn | lia ].
Qed.

(** A refused write inside the loop changes nothing but the count of
    writes: the rows stay in the batch and the loop goes on. *)
Lemma on_object_refused st buf r :
  decode buf = Some r ->
  batch_size <= Z.of_nat (List.length (batch st ++ [r])) ->
  conn (writes st) (batch st ++ [r]) = true ->
  handle st buf
  = {| batch := batch st ++ [r]; total_messages := total_messages st + 1;
       commits := commits st; writes := S (writes st); printed := printed st |}.
Proof.
  intros D Hlen Hconn. unfold on_object. rewrite D. cbv zeta.
  destruct (Z.leb_spec batch_size (Z.of_nat (List.length (batch st ++ [r]))));
    [ now rewrite Hconn | lia ].
Qed.

(** On a store that takes every write the batches written so far and the
    rows waiting make up, in order, the rows decoded so far; a batch is
    written as soon as it is full. *)
Lemma fold_accepting objs :
  (forall n rows, conn n rows = false) -> 0 < batch_size ->
  forall st,
  Z.of_nat (List.length (batch st)) < batch_size ->
  Forall (fun b => Z.of_nat (List.length b) = batch_size) (commits st) ->
  let st' := fold_left handle objs st in
  List.concat (commits st') ++ batch st'
  = List.concat (commits st) ++ batch st ++ rows_of instances_dict companies_dict objs
  /\ Z.of_nat (List.length (batch st')) < batch_size
  /\ Forall (fun b => Z.of_nat (List.length b) = batch_size) (commits st')
  /\ total_messages st'
     = total_messages st
       + Z.of_nat (List.length (rows_of instances_dict companies_dict objs)).
Proof.
  intros Hconn Hsize.
  induction objs as [| o objs IH]; intros st Hlen Hfull; cbn [fold_left rows_of flat_map].
  - cbv zeta. rewrite app_nil_r. repeat split; [ assumption | assumption | cbn; lia ].
  - fold (rows_of instances_dict companies_dict objs).
    destruct (decode o) as [r |] eqn:D.
    + destruct (Z.ltb_spec (Z.of_nat (List.length (batch st ++ [r]))) batch_size)
        as [Hroom | Hfilled].
      * rewrite (on_object_kept st o r D Hroom).
        specialize (IH {| batch := batch st ++ [r];
                          total_messages := total_messages st + 1;
                          commits := commits st; writes := writes st;
                          printed := printed st |} Hroom Hfull).
        cbv zeta in IH |- *. cbn [batch commits total_messages] in IH.
        destruct IH as (Hrows & Hlen' & Hfull' & Htotal).
        repeat split; try assumption.
        -- rewrite Hrows, <- !app_assoc. reflexivity.
        -- rewrite Htotal. cbn [List.length app]. lia.
      * rewrite (on_object_written st o r D Hfilled (Hconn _ _)).
        assert (Hexact : Z.of_nat (List.length (batch st ++ [r])) = batch_size).
        { rewrite length_app in *. cbn [List.length] in *. lia. }
        assert (Hfull1 : Forall (fun b => Z.of_nat (List.length b) = batch_size)
                           (commits st ++ [batch st ++ [r]])).
        { apply Forall_app. split; [ assumption | now constructor ]. }
        assert (Hempty : Z.of_nat (@List.length row []) < batch_size) by (cbn; lia).
        specialize (IH {| batch := []; total_messages := total_messages st + 1;
                          commits := commits st ++ [batch st ++ [r]];
                          writes := S (writes st);
                          printed := printed st ++ [Progress (total_messages st + 1)] |}
                       Hempty Hfull1).
        cbv zeta in IH |- *. cbn [batch commits total_messages] in IH.
        destruct IH as (Hrows & Hlen' & Hfull' & Htotal).
        repeat split; try assumption.
        -- rewrite Hrows, concat_app. cbn [List.concat app].
           rewrite app_nil_r, <- !app_assoc. reflexivity.
        -- rewrite Htotal. cbn [List.length app]. lia.
    + rewrite on_object_undecodable by assumption.
      cbn [app]. apply IH; assumption.
Qed.

(** Whatever the batch size and the number of records, on a store that
    takes every write the rows reach the store in the order of the input,
    each once, in batches that are all full but the last, and the count
    returned is the number of rows. *)
Theorem batches_keep_input_order objs text :
  array_text objs text ->
  (forall n rows, conn n rows = false) -> 0 < batch_size ->
  List.concat (commits (snd (load text))) = rows_of instances_dict companies_dict objs
  /\ fst (load text) = Z.of_nat (List.length (rows_of instances_dict companies_dict objs))
  /\ Forall (fun b => Z.of_nat (List.length b) = batch_size)
       (removelast (commits (snd (load text))))
  /\ Forall (fun b => 0 < Z.of_nat (List.length b) <= batch_size)
       (commits (snd (load text))).
Proof.
  intros Harr Hconn Hsize.
  rewrite (stream_load_messages_objects _ _ Harr).
  destruct (fold_accepting objs Hconn Hsize loader0) as (Hrows & Hlen & Hfull & Htotal);
    [ cbn; lia | constructor | ].
  cbv zeta in *. cbn [loader0 commits batch total_messages List.concat app] in *.
  set (st := fold_left handle objs loader0) in *.
  unfold finish. destruct (batch st) as [| r rest] eqn:Hbatch.
  - cbn [fst snd commits]. rewrite app_nil_r in Hrows.
    repeat split; [ assumption | lia | | ].
    + clear - Hfull. induction Hfull as [| b bs Hb Hbs IH]; [ constructor | ].
      destruct bs; [ constructor | ]. cbn [removelast]. constructor; assumption.
    + eapply Forall_impl; [ | exact Hfull ]. cbn beta. intros b Hb. lia.
  - rewrite Hconn. cbn [fst snd commits].
    repeat split.
    + rewrite concat_app. cbn [List.concat]. now rewrite app_nil_r.
    + lia.
    + rewrite removelast_last. assumption.
    + apply Forall_app. split.
      * eapply Forall_impl; [ | exact Hfull ]. cbn beta. intros b Hb. lia.
      * constructor; [ | constructor ]. cbn [List.length] in *. lia.
Qed.

(** C5, as amended. On an array whose elements are balanced in braces
    and quotes, the elements that [json.loads] refuses leave no trace:
    the load returns, and it returns what it returns for the array without
    them (same rows in the same batches, same count, same messages
    printed). *)
Theorem undecodable_objects_are_dropped objs text text' :
  array_text objs text ->
  array_text (filter decodes objs) text' ->
  load text = load text'.
Proof.
  intros H H'.
  rewrite (stream_load_messages_objects _ _ H), (stream_load_messages_objects _ _ H').
  now rewrite fold_skips_undecodable.
Qed.

End LoadFacts.

Lemma undecodable_objects_are_dropped_witness :
  array_text [js "{'a': }"; js "{'b': 1}"] (js "[{'a': }, {'b': 1}]")
  /\ array_text (filter decodes [js "{'a': }"; js "{'b': 1}"]) (js "[{'b': 1}]")
  /\ stream_load_messages accepting no_refs no_refs 5000 (js "[{'a': }, {'b': 1}]")
     = stream_load_messages accepting no_refs no_refs 5000 (js "[{'b': 1}]").
Proof.
  assert (H : array_text [js "{'a': }"; js "{'b': 1}"] (js "[{'a': }, {'b': 1}]"))
    by derive_array.
  assert (H' : array_text (filter decodes [js "{'a': }"; js "{'b': 1}"])
                 (js "[{'b': 1}]"))
    by derive_array.
  split; [ exact H | split; [ exact H' | ] ].
  exact (undecodable_objects_are_dropped accepting no_refs no_refs 5000 _ _ _ H H').
Defined.

(** C5, as stated, fails twice. An object whose string literal is never
    closed takes everything after it into the string: the well-formed
    object that follows is never completed, and no row is made of it. And
    a dropped object is not counted: the load of an array with a refused
    element and the load of the array without it end in the same state. *)
Lemma unbalanced_object_swallows_the_rest :
  object_text (js "{'b': 1}")
  /\ option_map body (decode_row no_refs no_refs (js "{'b': 1}")) = Some (PStr [])
  /\ candidates (js "[{'a': 'x}, {'b': 1}]") = []
  /\ stream_load_messages accepting no_refs no_refs 5000 (js "[{'a': 'x}, {'b': 1}]")
     = (0, {| batch := []; total_messages := 0; commits := []; writes := 0;
              printed := [Complete 0] |})
  /\ stream_load_messages accepting no_refs no_refs 5000 (js "[{'a': }, {'b': 1}]")
     = stream_load_messages accepting no_refs no_refs 5000 (js "[{'b': 1}]").
Proof.
  split; [ vm_compute; derive_object | ].
  repeat split; vm_compute; reflexivity.
Qed.

(** ** Batches *)

(** C7. With batch size 2 and five records that decode, on a store that
    takes every write: three writes, of the first two rows, the next two
    and the last one, in the order of the input; the first two are made
    inside the loop (each prints its line of progress), the third is the
    write of what is left at the end of the stream; five is returned. *)
Theorem five_records_three_commits
    {RT : Runtime} (conn : connection) (instances_dict companies_dict : refs)
    (text o1 o2 o3 o4 o5 : pystr) (r1 r2 r3 r4 r5 : row) :
  array_text [o1; o2; o3; o4; o5] text ->
  (forall n rows, conn n rows = false) ->
  decode_row instances_dict companies_dict o1 = Some r1 ->
  decode_row instances_dict companies_dict o2 = Some r2 ->
  decode_row instances_dict companies_dict o3 = Some r3 ->
  decode_row instances_dict companies_dict o4 = Some r4 ->
  decode_row instances_dict companies_dict o5 = Some r5 ->
  let result := stream_load_messages conn instances_dict companies_dict 2 text in
  fst result = 5
  /\ commits (snd result) = [[r1; r2]; [r3; r4]; [r5]]
  /\ writes (snd result) = 3%nat
  /\ printed (snd result) = [Progress 2; Progress 4; Complete 5].
Proof.
  intros Harr Hconn D1 D2 D3 D4 D5 result. subst result.
  rewrite (stream_load_messages_objects _ _ _ _ _ _ Harr).
  cbn [fold_left].
  rewrite (on_object_kept _ _ _ _ loader0 _ _ D1) by (cbn; lia).
  cbn [batch total_messages commits writes printed loader0 app].
  rewrite (on_object_written _ _ _ _ _ _ _ D2) by (cbn; (lia || apply Hconn)).
  cbn [batch total_messages commits writes printed app].
  rewrite (on_object_kept _ _ _ _ _ _ _ D3) by (cbn; lia).
  cbn [batch total_messages commits writes printed app].
  rewrite (on_object_written _ _ _ _ _ _ _ D4) by (cbn; (lia || apply Hconn)).
  cbn [batch total_messages commits writes printed app].
  rewrite (on_object_kept _ _ _ _ _ _ _ D5) by (cbn; lia).
  cbn [batch total_messages commits writes printed app].
  unfold finish. cbn [batch total_messages commits writes printed app].
  rewrite Hconn. cbn [fst snd commits writes printed app Z.add Pos.add Pos.succ].
  repeat split.
Qed.

Lemma five_records_three_commits_witness :
  let text := js "[{'body':'a'}, {'body':'b'}, {'body':'c'}, {'body':'d'}, {'body':'e'}]" in
  let result := stream_load_messages accepting no_refs no_refs 2 text in
  fst result = 5
  /\ map (map body) (commits (snd result))
     = [[PStr (u "a"); PStr (u "b")]; [PStr (u "c"); PStr (u "d")]; [PStr (u "e")]]
  /\ writes (snd result) = 3%nat.
Proof.
  intros text result.
  assert (D : forall s, In s ["a"; "b"; "c"; "d"; "e"] ->
              exists r, decode_row no_refs no_refs
                          (js "{'body':'" ++ u s ++ js "'}") = Some r
                        /\ body r = PStr (u s)).
  { intros s [<- | [<- | [<- | [<- | [<- | []]]]]];
      vm_compute; eexists; split; reflexivity. }
  destruct (D "a") as (r1 & D1 & B1); [ cbn; tauto | ].
  destruct (D "b") as (r2 & D2 & B2); [ cbn; tauto | ].
  destruct (D "c") as (r3 & D3 & B3); [ cbn; tauto | ].
  destruct (D "d") as (r4 & D4 & B4); [ cbn; tauto | ].
  destruct (D "e") as (r5 & D5 & B5); [ cbn; tauto | ].
  assert (Harr : array_text
                   [js "{'body':'" ++ u "a" ++ js "'}"; js "{'body':'" ++ u "b" ++ js "'}";
                    js "{'body':'" ++ u "c" ++ js "'}"; js "{'body':'" ++ u "d" ++ js "'}";
                    js "{'body':'" ++ u "e" ++ js "'}"] text)
    by (subst text; derive_array).
  destruct (five_records_three_commits accepting no_refs no_refs _ _ _ _ _ _ _ _ _ _ _
              Harr (fun _ _ => eq_refl) D1 D2 D3 D4 D5)
    as (Htotal & Hcommits & Hwrites & _).
  subst result. rewrite Hcommits. cbn [map]. rewrite B1, B2, B3, B4, B5.
  repeat split; assumption.
Defined.

(** C8, where the code departs from it. With batch size 2:
    - a record whose [type] is an object makes every batch that holds it
      unwritable; the refusal of the first write raises inside the [try]
      of the loop and is passed over, the third record is still scanned
      and decoded and a second write attempted; only the write of what is
      left after the loop reports an error and returns 0, no row is
      stored, and [main] prints its banner of success all the same;
    - on a store that refuses the first write only, the second write
      carries all three rows, nothing is reported, and 3 is returned. *)
Theorem rejected_write_does_not_stop_the_run :
  let unwritable :=
    stream_load_messages sqlite_store no_refs no_refs 2
      (js "[{'type':{'a':1},'body':'a'}, {'body':'b'}, {'body':'c'}]") in
  let transient :=
    stream_load_messages rejecting_once no_refs no_refs 2
      (js "[{'body':'a'}, {'body':'b'}, {'body':'c'}]") in
  (fst unwritable = 0
   /\ total_messages (snd unwritable) = 3
   /\ writes (snd unwritable) = 3%nat
   /\ commits (snd unwritable) = []
   /\ printed (snd unwritable) = [ErrorReported])
  /\ main sqlite_store no_refs no_refs (js "[{'type':{'a':1},'body':'a'}]")
     = [ErrorReported; DatabaseCreated]
  /\ (fst transient = 3
      /\ map (map body) (commits (snd transient))
         = [[PStr (u "a"); PStr (u "b"); PStr (u "c")]]
      /\ writes (snd transient) = 2%nat
      /\ printed (snd transient) = [Progress 3; Complete 3]).
Proof. vm_compute. repeat split. Qed.

(** ** The customer phone *)

Section PhoneFacts.
Context {RT : Runtime}.

Lemma digit_or_plus_not_at c : digit_or_plus c = true -> c <> AT.
Proof.
  intros H ->. unfold digit_or_plus, re_digit, AT, PLUS in H. cbn in H. discriminate.
Qed.

Lemma strip_at_clean p :
  forallb digit_or_plus p = true -> strip_at false p = p.
Proof.
  induction p as [| c p IH]; cbn [forallb strip_at]; intros H.
  - reflexivity.
  - apply andb_true_iff in H as [Hc Hp].
    destruct (Z.eqb_spec c AT) as [E | _].
    + now apply digit_or_plus_not_at in Hc.
    + now rewrite IH.
Qed.

Lemma strip_at_dropping s :
  ~ In NEWLINE s -> strip_at true s = [].
Proof.
  induction s as [| c s IH]; cbn [strip_at]; intros H.
  - reflexivity.
  - destruct (Z.eqb_spec c NEWLINE) as [-> | _].
    + exfalso. apply H. now left.
    + apply IH. intros Hin. apply H. now right.
Qed.

(** On a value of one line, [re.sub(r'@.*', '', s)] cuts the suffix that
    starts at the first [@]. *)
Lemma strip_at_single_line s :
  ~ In NEWLINE s -> strip_at false s = before_at s.
Proof.
  induction s as [| c s IH]; cbn [strip_at before_at]; intros H.
  - reflexivity.
  - destruct (Z.eqb_spec c AT) as [_ | _].
    + apply strip_at_dropping. intros Hin. apply H. now right.
    + f_equal. apply IH. intros Hin. apply H. now right.
Qed.

Lemma clean_phone_some v p :
  clean_phone v = Some p ->
  exists raw, v = PStr raw
              /\ p = keep_digits_plus (strip_at false raw)
              /\ (10 <= List.length p)%nat.
Proof.
  destruct v as [| | | | raw | |]; try discriminate.
  unfold clean_phone. destruct (truthy (PStr raw)); [| discriminate].
  cbv zeta.
  destruct (Nat.leb_spec 10 (List.length (keep_digits_plus (strip_at false raw))))
    as [Hlen | Hlen]; [| discriminate].
  intros [= <-]. exists raw. auto.
Qed.

Lemma clean_phone_str raw :
  clean_phone (PStr raw)
  = if (10 <=? List.length (keep_digits_plus (strip_at false raw)))%nat
    then Some (keep_digits_plus (strip_at false raw)) else None.
Proof.
  unfold clean_phone. destruct raw as [| c raw]; cbn [truthy]; reflexivity.
Qed.

Lemma clean_phone_fixed p :
  forallb digit_or_plus p = true -> (10 <= List.length p)%nat ->
  clean_phone (PStr p) = Some p.
Proof.
  intros Hp Hlen. rewrite clean_phone_str, (strip_at_clean _ Hp).
  unfold keep_digits_plus. rewrite (forallb_filter_id _ _ Hp).
  destruct (Nat.leb_spec 10 (List.length p)); [ reflexivity | lia ].
Qed.

(** C3, as amended. The customer phone is never an error: it is a text
    or null. A text has at least ten characters, each a digit or a plus
    sign (a plus sign may stand anywhere, and more than once). It is what
    cleaning leaves of the value found, when that is a string: the value
    without each [@] and what follows it on its line (its [@]-suffix, for
    a value of one line), then without every character that is neither a
    digit nor a plus sign; a text shorter than ten characters, and a value
    that is no string, give null. *)
Theorem customer_phone_shape (msg : dict) :
  (forall p, extract_customer_phone msg = Some p ->
             forallb digit_or_plus p = true /\ (10 <= List.length p)%nat)
  /\ (forall raw, find_phone msg = PStr raw ->
        extract_customer_phone msg
        = if (10 <=? List.length (keep_digits_plus (strip_at false raw)))%nat
          then Some (keep_digits_plus (strip_at false raw)) else None)
  /\ (forall raw, ~ In NEWLINE raw -> strip_at false raw = before_at raw)
  /\ ((forall raw, find_phone msg <> PStr raw) -> extract_customer_phone msg = None).
Proof.
  unfold extract_customer_phone. split; [ | split; [ | split ] ].
  - intros p Hp. apply clean_phone_some in Hp as (raw & _ & -> & Hlen).
    split; [ apply forallb_filter | exact Hlen ].
  - intros raw ->. apply clean_phone_str.
  - apply strip_at_single_line.
  - intros Hother. destruct (find_phone msg) as [| | | | raw | |]; try reflexivity.
    now destruct (Hother raw).
Qed.

(** C9. A phone the extraction returned is returned unchanged when it is
    cleaned again, and when it is extracted from a message that carries
    it. *)
Theorem phone_normalization_idempotent (msg : dict) (p : pystr) :
  extract_customer_phone msg = Some p ->
  clean_phone (PStr p) = Some p
  /\ extract_customer_phone [(u "phone", PStr p)] = Some p.
Proof.
  intros H. apply clean_phone_some in H as (raw & _ & -> & Hlen).
  assert (Hfix : clean_phone (PStr (keep_digits_plus (strip_at false raw)))
                 = Some (keep_digits_plus (strip_at false raw))).
  { apply clean_phone_fixed; [ apply forallb_filter | exact Hlen ]. }
  split; [ exact Hfix | ].
  unfold extract_customer_phone.
  replace (find_phone [(u "phone", PStr (keep_digits_plus (strip_at false raw)))])
    with (PStr (keep_digits_plus (strip_at false raw))); [ exact Hfix | ].
  destruct (keep_digits_plus (strip_at false raw)) as [| c q];
    [ cbn in Hlen; lia | reflexivity ].
Qed.

End PhoneFacts.

Lemma phone_normalization_idempotent_witness :
  extract_customer_phone [(u "remoteJid", PStr (u "201001234567@s.whatsapp.net"))]
  = Some (u "201001234567")
  /\ clean_phone (PStr (u "201001234567")) = Some (u "201001234567")
  /\ extract_customer_phone [(u "phone", PStr (u "201001234567"))] = Some (u "201001234567").
Proof.
  assert (H : extract_customer_phone
                [(u "remoteJid", PStr (u "201001234567@s.whatsapp.net"))]
              = Some (u "201001234567")) by (vm_compute; reflexivity).
  split; [ exact H | exact (phone_normalization_idempotent _ _ H) ].
Defined.

(** C3, as stated, fails: a plus sign inside the value is kept where it
    stands, so the phone returned is not digits after one leading plus. *)
Lemma plus_sign_is_kept_anywhere :
  extract_customer_phone [(u "phone", PStr (u "2010+01234567"))] = Some (u "2010+01234567")
  /\ digits_after_optional_plus (u "2010+01234567") = false.
Proof. split; vm_compute; reflexivity. Qed.

(** C2, where the code departs from it. Among the nested parents the
    last one that has a field wins, not the first: the [break] of the
    inner loop does not leave the loop over the parents. And a field that
    is present is taken even when it is empty, so an empty [jid] hides the
    [phone] beside it. *)
Theorem later_parent_overrides_earlier :
  forall RT : Runtime,
  extract_customer_phone
    [(u "message", PDict [(u "jid", PStr (u "201111111111@s.whatsapp.net"))]);
     (u "chat", PDict [(u "jid", PStr (u "202222222222@s.whatsapp.net"))])]
  = Some (u "202222222222")
  /\ extract_customer_phone
       [(u "chat", PDict [(u "jid", PStr []); (u "phone", PStr (u "201111111111"))])]
     = None.
Proof. intros RT. split; vm_compute; reflexivity. Qed.

(** ** Sentiment *)

Section SentimentFacts.
Context {RT : Runtime}.

(** The sum of the source counts the keywords of the list that occur in
    the text, each once. *)
Lemma count_hits_keyword_hits words text :
  count_hits words text = keyword_hits words text.
Proof.
  unfold keyword_hits.
  induction words as [| w words IH]; cbn [count_hits fold_right filter].
  - reflexivity.
  - fold (count_hits words text). rewrite IH.
    destruct (contains w text); cbn [List.length]; lia.
Qed.

Lemma no_hits_in_empty_text :
  keyword_hits positive_words [] = 0 /\ keyword_hits negative_words [] = 0.
Proof. split; vm_compute; reflexivity. Qed.

(** C4. The body is lower-cased, the keywords of the positive list and
    of the negative list that occur in it are counted over the whole body,
    and the strictly greater count names the label; equal counts, zero and
    zero and the empty body among them, give Neutral. *)
Theorem sentiment_by_keyword_counts (body : pystr) :
  let text := str_lower body in
  let positive_count := keyword_hits positive_words text in
  let negative_count := keyword_hits negative_words text in
  detect_sentiment (PStr body)
  = (if positive_count >? negative_count then u "Positive"
     else if negative_count >? positive_count then u "Negative"
     else u "Neutral")
  /\ (negative_count < positive_count -> detect_sentiment (PStr body) = u "Positive")
  /\ (positive_count < negative_count -> detect_sentiment (PStr body) = u "Negative")
  /\ (positive_count = negative_count -> detect_sentiment (PStr body) = u "Neutral")
  /\ detect_sentiment (PStr []) = u "Neutral".
Proof.
  intros text positive_count negative_count.
  assert (Hmain : detect_sentiment (PStr body)
                  = (if positive_count >? negative_count then u "Positive"
                     else if negative_count >? positive_count then u "Negative"
                     else u "Neutral")).
  { subst text positive_count negative_count. unfold detect_sentiment.
    destruct body as [| c body]; cbn [truthy negb py_str].
    - rewrite str_lower_nil.
      destruct no_hits_in_empty_text as [-> ->]. reflexivity.
    - now rewrite !count_hits_keyword_hits. }
  split; [ exact Hmain | ].
  rewrite Hmain.
  destruct (Z.gtb_spec positive_count negative_count);
    destruct (Z.gtb_spec negative_count positive_count);
    repeat split; intros; solve [ reflexivity | lia ].
Qed.

End SentimentFacts.

Example sentiment_examples :
  detect_sentiment (PStr (u "Thanks, GREAT service")) = u "Positive"
  /\ detect_sentiment (PStr (u "bad, wrong and late - but thanks")) = u "Negative"
  /\ detect_sentiment (PStr (u "good good good, bad")) = u "Neutral"
  /\ detect_sentiment (PStr (u "شكرا")) = u "Positive".
Proof. repeat split; vm_compute; reflexivity. Qed.

(** ** Timestamps *)

Section TimestampFacts.
Context {RT : Runtime}.

Lemma milliseconds_to_seconds_1700000000000 :
  to_timeval (NFloat (div_1000 (NInt 1700000000000))) = Some (1700000000, 0).
Proof. vm_compute. reflexivity. Qed.

Lemma days_of_november_2023 :
  civil_from_days 19674 = (2023, 11, 13)
  /\ civil_from_days 19675 = (2023, 11, 14)
  /\ civil_from_days 19676 = (2023, 11, 15).
Proof. repeat split; vm_compute; reflexivity. Qed.

Lemma fromtimestamp_2023 :
  -86400 < utcoffset 1700000000 < 86400 ->
  exists d, fromtimestamp (NInt 1700000000) = Some d.
Proof.
  intros Hzone. unfold fromtimestamp. cbv beta iota delta [to_timeval].
  set (local := 1700000000 + utcoffset 1700000000).
  assert (Hday : local / 86400 = 19674 \/ local / 86400 = 19675 \/ local / 86400 = 19676).
  { subst local. Z.div_mod_to_equations. lia. }
  destruct days_of_november_2023 as (E1 & E2 & E3).
  destruct Hday as [-> | [-> | ->]];
    [ rewrite E1 | rewrite E2 | rewrite E3 ];
    change ((1 <=? 2023) && (2023 <=? 9999)) with true;
    cbv beta iota; eexists; reflexivity.
Qed.

Lemma fromtimestamp_milliseconds_2023 :
  fromtimestamp (NFloat (div_1000 (NInt 1700000000000))) = fromtimestamp (NInt 1700000000).
Proof.
  unfold fromtimestamp. rewrite milliseconds_to_seconds_1700000000000. reflexivity.
Qed.

Lemma str_eqb_refl s : str_eqb s s = true.
Proof.
  induction s as [| c s IH]; cbn [str_eqb]; [ reflexivity | ].
  now rewrite Z.eqb_refl, IH.
Qed.

Lemma dict_get_first k v d : dict_get ((k, v) :: d) k = Some v.
Proof. cbn [dict_get]. now rewrite str_eqb_refl. Qed.

Lemma parse_timestamp_int n :
  n <> 0 -> parse_timestamp (PInt n) = epoch_to_datetime (NInt n).
Proof.
  intros Hn. unfold parse_timestamp, truthy.
  now rewrite (proj2 (Z.eqb_neq n 0) Hn).
Qed.

Lemma parse_timestamp_float f :
  sf_is_zero f = false -> parse_timestamp (PFloat f) = epoch_to_datetime (NFloat f).
Proof. intros Hf. unfold parse_timestamp, truthy. now rewrite Hf. Qed.

Lemma parse_timestamp_wrapped v :
  parse_timestamp (PDict [(u "$date", v)])
  = match v with
    | PStr s => iso_to_datetime s
    | PBool b => epoch_to_datetime (NInt (Z.b2z b))
    | PInt n => epoch_to_datetime (NInt n)
    | PFloat f => epoch_to_datetime (NFloat f)
    | _ => None
    end.
Proof.
  unfold parse_timestamp. cbn [truthy negb]. now rewrite dict_get_first.
Qed.

(** C6, as amended. A whole number, wrapped in [$date] or bare and not
    zero, is milliseconds when it is above 10^12 (it is divided by 1000
    first) and seconds otherwise; so is a float, wrapped or bare and not
    zero. A bare zero is no timestamp. 1700000000 and 1700000000000
    decode, bare and wrapped, to one datetime, hence to the same date and
    the same hour (in a zone whose offset at that instant is within a
    day). *)
Theorem epoch_seconds_or_milliseconds :
  -86400 < utcoffset 1700000000 < 86400 ->
  (forall n, n <> 0 ->
     parse_timestamp (PInt n)
     = if n >? 10 ^ 12 then fromtimestamp (NFloat (div_1000 (NInt n)))
       else fromtimestamp (NInt n))
  /\ (forall n,
        parse_timestamp (PDict [(u "$date", PInt n)])
        = if n >? 10 ^ 12 then fromtimestamp (NFloat (div_1000 (NInt n)))
          else fromtimestamp (NInt n))
  /\ (forall f, sf_is_zero f = false ->
        parse_timestamp (PFloat f)
        = if SFltb (b64 (10 ^ 12)) f then fromtimestamp (NFloat (div_1000 (NFloat f)))
          else fromtimestamp (NFloat f))
  /\ (forall f,
        parse_timestamp (PDict [(u "$date", PFloat f)])
        = if SFltb (b64 (10 ^ 12)) f then fromtimestamp (NFloat (div_1000 (NFloat f)))
          else fromtimestamp (NFloat f))
  /\ parse_timestamp (PInt 0) = None
  /\ (forall f, sf_is_zero f = true -> parse_timestamp (PFloat f) = None)
  /\ exists seconds milliseconds,
       parse_timestamp (PInt 1700000000) = Some seconds
       /\ parse_timestamp (PInt 1700000000000) = Some milliseconds
       /\ parse_timestamp (PDict [(u "$date", PInt 1700000000)]) = Some seconds
       /\ parse_timestamp (PDict [(u "$date", PInt 1700000000000)]) = Some milliseconds
       /\ (year seconds, month seconds, day seconds)
          = (year milliseconds, month milliseconds, day milliseconds)
       /\ hour seconds = hour milliseconds.
Proof.
  intros Hzone.
  split; [ intros n Hn; now rewrite parse_timestamp_int | ].
  split; [ intros n; now rewrite parse_timestamp_wrapped | ].
  split; [ intros f Hf; now rewrite parse_timestamp_float | ].
  split; [ intros f; now rewrite parse_timestamp_wrapped | ].
  split; [ reflexivity | ].
  split; [ intros f Hf; unfold parse_timestamp, truthy; now rewrite Hf | ].
  destruct (fromtimestamp_2023 Hzone) as [d Hd].
  exists d, d.
  rewrite !parse_timestamp_wrapped, !parse_timestamp_int by lia.
  unfold epoch_to_datetime, gt_1e12.
  change (1700000000 >? 10 ^ 12) with false.
  change (1700000000000 >? 10 ^ 12) with true.
  cbv iota. rewrite fromtimestamp_milliseconds_2023, Hd.
  repeat split.
Qed.

End TimestampFacts.

Lemma epoch_seconds_or_milliseconds_witness :
  -86400 < utcoffset 1700000000 < 86400
  /\ exists seconds milliseconds,
       parse_timestamp (PInt 1700000000) = Some seconds
       /\ parse_timestamp (PInt 1700000000000) = Some milliseconds
       /\ (year seconds, month seconds, day seconds)
          = (year milliseconds, month milliseconds, day milliseconds)
       /\ hour seconds = hour milliseconds.
Proof.
  assert (Hzone : -86400 < utcoffset 1700000000 < 86400) by (cbn; lia).
  destruct (epoch_seconds_or_milliseconds Hzone)
    as (_ & _ & _ & _ & _ & _ & s & ms & Hs & Hms & _ & _ & Hdate & Hhour).
  split; [ exact Hzone | ].
  exists s, ms. repeat split; assumption.
Defined.

Example epoch_2023_in_utc :
  parse_timestamp (PInt 1700000000000)
  = Some {| year := 2023; month := 11; day := 14;
            hour := 22; minute := 13; second := 20; microsecond := 0 |}
  /\ parse_timestamp (PInt 1700000000)
     = Some {| year := 2023; month := 11; day := 14;
               hour := 22; minute := 13; second := 20; microsecond := 0 |}.
Proof. split; vm_compute; reflexivity. Qed.

(** C6, as stated, fails at zero: a bare 0 is taken for a missing
    timestamp and gives null, where read as seconds, and wrapped in
    [$date], it is the first second of 1970. *)
Lemma bare_zero_is_no_timestamp :
  parse_timestamp (PInt 0) = None
  /\ fromtimestamp (NInt 0)
     = Some {| year := 1970; month := 1; day := 1;
               hour := 0; minute := 0; second := 0; microsecond := 0 |}
  /\ parse_timestamp (PDict [(u "$date", PInt 0)])
     = Some {| year := 1970; month := 1; day := 1;
               hour := 0; minute := 0; second := 0; microsecond := 0 |}.
Proof. repeat split; vm_compute; reflexivity. Qed.

(** ** The broadcast flag *)

Section BroadcastFacts.
Context {RT : Runtime}.

Lemma utf8_nonempty b bs : utf8 (b :: bs) <> [].
Proof.
  cbn [utf8]. destruct (b <? 128); [ discriminate | ].
  destruct bs as [| b1 bs]; [ discriminate | ].
  destruct (b <? 224); [ discriminate | ].
  destruct bs as [| b2 bs]; [ discriminate | ].
  destruct (b <? 240); [ discriminate | ].
  destruct bs as [| b3 bs]; discriminate.
Qed.

Lemma u_nonempty s : s <> EmptyString -> u s <> [].
Proof.
  destruct s as [| a s]; [ congruence | intros _ ].
  unfold u. cbn [list_ascii_of_string map]. apply utf8_nonempty.
Qed.

Lemma string_of_int_nonempty d : NilZero.string_of_int d <> EmptyString.
Proof. destruct d as [d | d]; [ destruct d | ]; discriminate. Qed.

(** [str(v)] of a value that is true is not empty. *)
Lemma py_str_nonempty v : truthy v = true -> py_str v <> [].
Proof.
  destruct v as [| [|] | n | f | s | l | d]; cbn [truthy py_str]; intros H;
    try discriminate H; try apply str_other_nonempty.
  - now apply u_nonempty.
  - apply u_nonempty, string_of_int_nonempty.
  - destruct s; [ discriminate H | discriminate ].
Qed.

Lemma first_key_empty keys : first_key [] keys = None.
Proof. induction keys as [| k keys IH]; cbn [first_key dict_get]; auto. Qed.

(** The foreign key is true when the first of the keys that is present
    holds an identifier that is true. *)
Lemma truthy_extract_foreign_key obj keys :
  truthy (extract_foreign_key obj keys)
  = match first_key obj keys with
    | Some id_val => truthy (id_payload id_val)
    | None => false
    end.
Proof.
  unfold extract_foreign_key, id_payload.
  destruct obj as [| kv obj]; cbn [truthy negb].
  - now rewrite first_key_empty.
  - destruct (first_key (kv :: obj) keys) as [id_val |]; [ | reflexivity ].
    destruct (unwrap_oid id_val) as [oid |]; [ reflexivity | ].
    destruct (truthy id_val) eqn:Hv; [ | reflexivity ].
    cbn [truthy]. pose proof (py_str_nonempty _ Hv) as Hs.
    now destruct (py_str id_val).
Qed.

Lemma truthy_py_or a b : truthy (py_or a b) = truthy a || truthy b.
Proof. unfold py_or. now destruct (truthy a) eqn:Ha; rewrite ?Ha. Qed.

Lemma build_row_is_broadcast instances_dict companies_dict msg r :
  build_row instances_dict companies_dict msg = Some r ->
  is_broadcast r
  = flag (truthy (get_default msg (u "isBroadCast") (PBool false))
          || truthy (extract_foreign_key msg broadcast_keys)).
Proof.
  unfold build_row.
  destruct (if truthy _ then refs_get _ _ else Some None) as [instance |];
    [ | discriminate ].
  match goal with
  | |- match ?x with _ => _ end = _ -> _ =>
      destruct x as [[company_id company] |]; [ | discriminate ]
  end.
  intros [= <-]. cbn [is_broadcast]. now rewrite truthy_py_or.
Qed.

(** C10, as amended. The flag of the row is 1 exactly when the field
    [isBroadCast] is true or the broadcast foreign key (of [broadCastId],
    [broadcast_id], [broadcast]) is: the first of these fields that is
    present holds an identifier that is true, itself or inside [$oid]. It
    is 0 otherwise. *)
Theorem is_broadcast_iff_truthy (instances_dict companies_dict : refs) (msg : dict) (r : row) :
  build_row instances_dict companies_dict msg = Some r ->
  (is_broadcast r = 1
   <-> truthy (get_default msg (u "isBroadCast") (PBool false)) = true
       \/ truthy (extract_foreign_key msg broadcast_keys) = true)
  /\ (truthy (extract_foreign_key msg broadcast_keys) = true
      <-> exists id_val, first_key msg broadcast_keys = Some id_val
                         /\ truthy (id_payload id_val) = true)
  /\ (is_broadcast r = 1 \/ is_broadcast r = 0).
Proof.
  intros Hr. rewrite (build_row_is_broadcast _ _ _ _ Hr).
  rewrite truthy_extract_foreign_key.
  split; [ | split ].
  - destruct (truthy (get_default msg (u "isBroadCast") (PBool false)));
      destruct (first_key msg broadcast_keys) as [id_val |];
      try destruct (truthy (id_payload id_val));
      cbn [orb flag]; split; intros H; auto; try lia;
      destruct H as [H | H]; discriminate H.
  - destruct (first_key msg broadcast_keys) as [id_val |].
    + split; [ intros H; now exists id_val | now intros (v & [= <-] & H) ].
    + split; [ discriminate | now intros (v & [=] & _) ].
  - destruct (_ || _); cbn [flag]; auto.
Qed.

End BroadcastFacts.

(** A record that carries a broadcast id and no [isBroadCast] is marked. *)
Lemma is_broadcast_iff_truthy_witness :
  option_map is_broadcast
    (build_row no_refs no_refs [(u "broadcast", PDict [(u "$oid", PStr (u "65a1"))])])
  = Some 1.
Proof.
  destruct (build_row no_refs no_refs
              [(u "broadcast", PDict [(u "$oid", PStr (u "65a1"))])]) as [r |] eqn:Hr;
    [ | vm_compute in Hr; discriminate Hr ].
  destruct (is_broadcast_iff_truthy _ _ _ _ Hr) as (Hflag & _ & _).
  cbn [option_map]. f_equal. apply Hflag. right. vm_compute. reflexivity.
Defined.

(** C10, as stated, fails on an identifier that is not null and not
    true: an empty [$oid] is returned as the foreign key, and the row is
    not marked. *)
Lemma empty_oid_is_not_broadcast :
  extract_foreign_key [(u "broadCastId", PDict [(u "$oid", PStr [])])] broadcast_keys
  = PStr []
  /\ PStr [] <> PNone
  /\ option_map is_broadcast
       (build_row no_refs no_refs [(u "broadCastId", PDict [(u "$oid", PStr [])])])
     = Some 0.
Proof. split; [ | split ]; [ vm_compute; reflexivity | discriminate | vm_compute; reflexivity ]. Qed.

(** ** The example of the specification, end to end *)

Example two_messages_end_to_end :
  let text :=
    js "[{'_id':{'$oid':'a'},'body':'price for panadol?','fromMe':false,'createdAt':{'$date':1700000000000}}, {'_id':'b','body':'thanks, great!','fromMe':true}]" in
  let result := stream_load_messages accepting no_refs no_refs 5000 text in
  fst result = 2
  /\ map (map (fun r => (message_id r, direction r, has_question r, instance_name r,
                         sentiment r, body_length r, row_date r, row_hour r)))
       (commits (snd result))
     = [[(PStr (u "a"), u "Incoming", 1, PStr (u "Unknown"), u "Neutral", 18,
          Some (2023, 11, 14), Some 22);
         (PStr (u "b"), u "Outgoing", 0, PStr (u "Unknown"), u "Positive", 14,
          None, None)]].
Proof. vm_compute. split; reflexivity. Qed.

(** ** JSON text is well-formed input *)

Section RenderFacts.
Context {RT : Runtime}.
(** [repr] of a float is digits, a sign, a point, an exponent, or one of
    [nan], [inf]: no brace and no quote. *)
Hypothesis float_text_plain : forall f, forallb plain (str_other (PFloat f)) = true.

Lemma obj_body_app a b : obj_body a -> obj_body b -> obj_body (a ++ b).
Proof.
  induction 1 as [| c s Ho Hc Hq Hs IH | lit s Hlit Hs IH | inner s Hin _ Hs IH];
    intros Hb; cbn [app].
  - exact Hb.
  - apply ob_char; auto.
  - rewrite <- app_assoc. cbn [app]. apply ob_string; auto.
  - rewrite <- app_assoc. cbn [app]. apply ob_nested; auto.
Qed.

Lemma obj_body_plain s : forallb plain s = true -> obj_body s.
Proof.
  induction s as [| c s IH]; cbn [forallb]; intros H; [ constructor | ].
  apply andb_true_iff in H as [Hc Hs].
  unfold plain in Hc. apply negb_true_iff in Hc.
  apply orb_false_iff in Hc as [Hc Hq]. apply orb_false_iff in Hc as [Ho Hc].
  apply ob_char; [ now apply Z.eqb_neq .. | auto ].
Qed.

Lemma escaped_is_str_body s : str_body (flat_map escape_char s).
Proof.
  induction s as [| c s IH]; cbn [flat_map]; [ constructor | ].
  unfold escape_char.
  destruct (Z.eqb_spec c QUOTE) as [-> | Hq]; cbn [orb app].
  - now apply sb_escape.
  - destruct (Z.eqb_spec c BACKSLASH) as [-> | Hb]; cbn [app].
    + now apply sb_escape.
    + now apply sb_char.
Qed.

Lemma string_literal_body s : obj_body (string_literal s).
Proof.
  unfold string_literal.
  change [QUOTE] with (QUOTE :: @nil Z).
  apply ob_string; [ apply escaped_is_str_body | constructor ].
Qed.

Lemma u_ascii a s :
  (Z.of_N (N_of_ascii a) <? 128) = true ->
  u (String a s) = Z.of_N (N_of_ascii a) :: u s.
Proof. intros H. unfold u. cbn [list_ascii_of_string map utf8]. now rewrite H. Qed.

Lemma uint_text_plain d : forallb plain (u (NilEmpty.string_of_uint d)) = true.
Proof.
  induction d; cbn [NilEmpty.string_of_uint]; [ reflexivity | .. ];
    (rewrite u_ascii by reflexivity); cbn [forallb]; rewrite IHd; reflexivity.
Qed.

Lemma int_text_plain n : forallb plain (py_str (PInt n)) = true.
Proof.
  assert (Huint : forall d, forallb plain (u (NilZero.string_of_uint d)) = true).
  { intros d. destruct d; try apply uint_text_plain. reflexivity. }
  cbn [py_str]. destruct (Z.to_int n) as [d | d]; cbn [NilZero.string_of_int].
  - apply Huint.
  - rewrite u_ascii by reflexivity. cbn [forallb]. rewrite Huint. reflexivity.
Qed.

Lemma join_body sep parts :
  obj_body sep -> Forall obj_body parts -> obj_body (join sep parts).
Proof.
  intros Hsep. induction 1 as [| part rest Hpart Hrest IH]; [ constructor | ].
  cbn [join]. destruct rest as [| part' rest]; [ assumption | ].
  apply obj_body_app; [ assumption | apply obj_body_app; assumption ].
Qed.

(** Every value, written out, is balanced in braces and quotes. *)
Lemma render_body : forall v, obj_body (render v).
Proof.
  fix IH 1. intros [| [|] | n | f | s | l | d]; cbn [render].
  - apply obj_body_plain. reflexivity.
  - apply obj_body_plain. reflexivity.
  - apply obj_body_plain. reflexivity.
  - apply obj_body_plain, int_text_plain.
  - apply obj_body_plain, float_text_plain.
  - apply string_literal_body.
  - apply ob_char; [ discriminate .. | ].
    apply obj_body_app; [ | apply obj_body_plain; reflexivity ].
    apply join_body; [ apply obj_body_plain; reflexivity | ].
    induction l as [| x l IHl]; cbn [map]; constructor; [ apply IH | apply IHl ].
  - change [RBRACE] with (RBRACE :: @nil Z).
    apply ob_nested; [ | constructor ].
    apply join_body; [ apply obj_body_plain; reflexivity | ].
    induction d as [| [k x] d IHd]; cbn [map fst snd]; constructor; [ | apply IHd ].
    apply obj_body_app; [ apply string_literal_body | ].
    apply obj_body_app; [ apply obj_body_plain; reflexivity | apply IH ].
Qed.

Lemma render_object d : object_text (render (PDict d)).
Proof.
  cbn [render]. apply ot_braces.
  apply join_body; [ apply obj_body_plain; reflexivity | ].
  induction d as [| [k x] d IHd]; cbn [map fst snd]; constructor; [ | apply IHd ].
  apply obj_body_app; [ apply string_literal_body | ].
  apply obj_body_app; [ apply obj_body_plain; reflexivity | apply render_body ].
Qed.

Lemma joined_array_tail texts rest :
  Forall object_text texts ->
  array_tail texts (join (u ", ") texts ++ RBRACKET :: rest).
Proof.
  induction 1 as [| o texts Ho Htexts IH]; [ apply at_close | ].
  destruct texts as [| o' texts].
  - cbn [join]. apply at_object; [ assumption | apply at_close ].
  - change (join (u ", ") (o :: o' :: texts))
      with (o ++ u ", " ++ join (u ", ") (o' :: texts)).
    rewrite <- !app_assoc. apply at_object; [ assumption | ].
    change (u ", ") with [44; 32]. cbn [app].
    apply at_sep; [ discriminate .. | ].
    apply at_sep; [ discriminate .. | ].
    exact IH.
Qed.

Lemma render_array_tail objs rest :
  array_tail (map (fun d => render (PDict d)) objs)
    (join (u ", ") (map (fun d => render (PDict d)) objs) ++ RBRACKET :: rest).
Proof.
  apply joined_array_tail.
  induction objs as [| d objs IH]; cbn [map]; constructor;
    [ apply render_object | exact IH ].
Qed.

(** An array of objects of any depth and with any strings, written out
    as JSON text, is scanned back into the texts of its objects. *)
Theorem rendered_array_is_scanned (objs : list dict) :
  candidates (render_array objs) = map (fun d => render (PDict d)) objs.
Proof.
  unfold candidates, render_array. cbn [seek_array].
  rewrite Z.eqb_refl.
  rewrite (scan_array _ _ _ _ (render_array_tail objs [])).
  apply fold_left_snoc.
Qed.

End RenderFacts.

Lemma rendered_array_is_scanned_witness :
  (forall f, forallb plain (str_other (PFloat f)) = true)
  /\ candidates
       (render_array
          [[(u "a", PDict [(u "b", PStr (u "}{]")); (u "n", PInt (-5))])]; []])
     = [js "{'a': {'b': '}{]', 'n': -5}}"; js "{}"].
Proof.
  assert (Hfloat : forall f, forallb plain (str_other (PFloat f)) = true)
    by (intros f; reflexivity).
  split; [ exact Hfloat | ].
  rewrite (rendered_array_is_scanned Hfloat). vm_compute. reflexivity.
Defined.

Lemma batches_keep_input_order_witness :
  let text := js "[{'body':'a'}, {'body':'b'}, {'x': }, {'body':'c'}]" in
  let result := stream_load_messages accepting no_refs no_refs 2 text in
  map body (List.concat (commits (snd result))) = [PStr (u "a"); PStr (u "b"); PStr (u "c")]
  /\ fst result = 3
  /\ map (@List.length row) (commits (snd result)) = [2%nat; 1%nat].
Proof.
  intros text result.
  assert (Harr : array_text
                   [js "{'body':'a'}"; js "{'body':'b'}"; js "{'x': }"; js "{'body':'c'}"]
                   text) by (subst text; derive_array).
  destruct (batches_keep_input_order accepting no_refs no_refs 2 _ _ Harr
              (fun _ _ => eq_refl) eq_refl) as (Hrows & Htotal & _ & _).
  subst result. rewrite Hrows, Htotal.
  split; [ vm_compute; reflexivity | split; [ vm_compute; reflexivity | ] ].
  vm_compute. reflexivity.
Defined.

(** ** The scanner on input that stops early *)

Ltac derive_items :=
  repeat first
    [ apply ai_nil
    | apply ai_sep; [ unfold LBRACE; lia | unfold RBRACKET; lia | ]
    | lazymatch goal with
      | |- array_items (?o :: ?objs) ?text =>
          let t := eval vm_compute in (skipn (List.length o) text) in
          change (array_items (o :: objs) (o ++ t));
          apply ai_object; [ derive_object | ]
      end ].

Section CutFacts.
Variable A : Type.
Variable h : A -> pystr -> A.

Lemma scan_items objs t :
  array_items objs t ->
  forall acc rest,
  scan_loop h scanner0 acc (t ++ rest) = scan_loop h scanner0 (fold_left h objs acc) rest.
Proof.
  induction 1 as [| c objs t Ho Hc Ht IH | o objs t Ho Ht IH]; intros acc rest.
  - reflexivity.
  - cbn [app]. rewrite step_between by (assumption || reflexivity). apply IH.
  - rewrite <- app_assoc. unfold scanner0 at 1. rewrite scan_object by assumption. apply IH.
Qed.

(** A string literal that is not closed hands nothing over. *)
Lemma cut_string lit :
  str_body lit ->
  forall q x b d acc, 0 < d -> lit = q ++ x ->
  scan_loop h {| buffer := b; brace_depth := d; in_string := true; escape_next := false |}
    acc q = acc.
Proof.
  induction 1 as [| c s Hq Hb Hs IH | c s Hs IH]; intros q x b d acc Hd E.
  - symmetry in E. apply app_eq_nil in E as [-> _]. reflexivity.
  - destruct q as [| c' q]; [ reflexivity | ].
    cbn [app] in E. injection E as <- E.
    rewrite step_in_string by assumption. now apply (IH q x).
  - destruct q as [| c1 q]; [ reflexivity | ].
    cbn [app] in E. injection E as <- E.
    rewrite step_backslash by assumption.
    destruct q as [| c2 q]; [ reflexivity | ].
    cbn [app] in E. injection E as <- E.
    rewrite step_escaped by assumption. now apply (IH q x).
Qed.

(** An object that is not closed hands nothing over. *)
Lemma cut_body body :
  obj_body body ->
  forall q x b d acc, 0 < d -> body = q ++ x ->
  scan_loop h {| buffer := b; brace_depth := d; in_string := false; escape_next := false |}
    acc q = acc.
Proof.
  induction 1 as [| c s Ho Hc Hq Hs IH | lit s Hlit Hs IH | inner s Hin IHin Hs IH];
    intros q x b d acc Hd E.
  - symmetry in E. apply app_eq_nil in E as [-> _]. reflexivity.
  - destruct q as [| c' q]; [ reflexivity | ].
    cbn [app] in E. injection E as <- E.
    rewrite step_plain by assumption. now apply (IH q x).
  - destruct q as [| c' q]; [ reflexivity | ].
    cbn [app] in E. injection E as <- E.
    rewrite step_quote by assumption. cbn [negb].
    apply app_eq_app in E as [l [[E1 E2] | [E1 E2]]].
    + now apply (cut_string lit Hlit q l).
    + subst q. destruct l as [| c2 l].
      * rewrite app_nil_r.
        apply (cut_string lit Hlit lit []); [ assumption | now rewrite app_nil_r ].
      * cbn [app] in E2. injection E2 as <- E2.
        rewrite scan_string by assumption. now apply (IH l x).
  - destruct q as [| c' q]; [ reflexivity | ].
    cbn [app] in E. injection E as <- E.
    rewrite step_open by assumption.
    apply app_eq_app in E as [l [[E1 E2] | [E1 E2]]].
    + apply (IHin q l); [ lia | assumption ].
    + subst q. destruct l as [| c2 l].
      * rewrite app_nil_r.
        apply (IHin inner []); [ lia | now rewrite app_nil_r ].
      * cbn [app] in E2. injection E2 as <- E2.
        rewrite scan_body by (assumption || lia).
        rewrite step_close_inner by assumption. now apply (IH l x).
Qed.

Lemma cut_silent p :
  cut_object p ->
  forall b s e acc,
  scan_loop h {| buffer := b; brace_depth := 0; in_string := s; escape_next := e |} acc p
  = acc.
Proof.
  intros (rest & Hrest & Hobj) b s e acc.
  inversion Hobj as [inner Hin E].
  destruct p as [| c p]; [ reflexivity | ].
  cbn [app] in E. injection E as <- E.
  destruct (exists_last Hrest) as (rest' & a & ->).
  rewrite app_assoc in E. apply app_inj_tail in E as [E _].
  rewrite step_start. now apply (cut_body inner Hin p rest').
Qed.

(** The text up to a cut, scanned. *)
Lemma scan_cut objs t cut :
  array_items objs t -> cut_object cut ->
  forall acc, scan_loop h scanner0 acc (t ++ cut) = fold_left h objs acc.
Proof.
  intros Ht Hcut acc. rewrite (scan_items _ _ Ht). now apply cut_silent.
Qed.

Lemma scan_closed objs t rest :
  array_items objs t ->
  forall acc, scan_loop h scanner0 acc (t ++ RBRACKET :: rest) = fold_left h objs acc.
Proof.
  intros Ht acc. rewrite (scan_items _ _ Ht). now apply step_end.
Qed.

End CutFacts.

Section CutLoad.
Context {RT : Runtime}.
Variable conn : connection.
Variables instances_dict companies_dict : refs.
Variable batch_size : Z.


End CutLoad.


(** ** The scanner on any input *)

Lemma seek_array_none text :
  ~ In LBRACKET text -> seek_array text = None.
Proof.
  induction text as [| c text IH]; intros H; cbn [seek_array].
  - reflexivity.
  - destruct (Z.eqb_spec c LBRACKET) as [-> | _].
    + exfalso. apply H. now left.
    + apply IH. intros Hin. apply H. now right.
Qed.

Lemma seek_array_some text rest :
  seek_array text = Some rest ->
  exists pre, ~ In LBRACKET pre /\ text = pre ++ LBRACKET :: rest.
Proof.
  revert rest. induction text as [| c text IH]; intros rest; cbn [seek_array].
  - discriminate.
  - destruct (Z.eqb_spec c LBRACKET) as [-> | Hc].
    + intros [= ->]. exists []. split; [ intros [] | reflexivity ].
    + intros H. destruct (IH _ H) as (pre & Hpre & ->).
      exists (c :: pre). split; [ | reflexivity ].
      intros [E | Hin]; [ now apply Hc | now apply Hpre ].
Qed.

(** While a buffer is open it starts with a brace and is the end of what
    was read; what is handed over is such a buffer and its closing
    brace. *)
Lemma scan_loop_pieces whole text :
  forall read sc l,
  whole = read ++ text ->
  (0 < brace_depth sc ->
   exists before inner, read = before ++ buffer sc /\ buffer sc = LBRACE :: inner) ->
  Forall (fun buf => braced buf /\ piece_of whole buf) l ->
  Forall (fun buf => braced buf /\ piece_of whole buf)
    (scan_loop (fun l buf => l ++ [buf]) sc l text).
Proof.
  induction text as [| c text IH]; intros read sc l Hwhole Hopen Hl; cbn [scan_loop].
  - exact Hl.
  - assert (Hnext : whole = (read ++ [c]) ++ text)
      by (rewrite <- app_assoc; exact Hwhole).
    assert (Hgrow : 0 < brace_depth sc ->
                    exists before inner,
                      read ++ [c] = before ++ buffer sc ++ [c]
                      /\ buffer sc ++ [c] = LBRACE :: inner).
    { intros Hd. destruct (Hopen Hd) as (before & inner & E1 & E2).
      exists before, (inner ++ [c]). rewrite E1, E2, <- app_assoc. now split. }
    unfold scan_char.
    destruct ((c =? RBRACKET) && (brace_depth sc =? 0)); [ exact Hl | ].
    destruct ((c =? LBRACE) && (brace_depth sc =? 0)) eqn:Hstart.
    { apply (IH (read ++ [c])); [ exact Hnext | | exact Hl ].
      cbn [buffer brace_depth]. intros _. exists read, [].
      apply andb_true_iff in Hstart as [Hc _]. apply Z.eqb_eq in Hc. now subst c. }
    destruct (Z.gtb_spec (brace_depth sc) 0) as [Hd | Hd].
    2:{ apply (IH (read ++ [c])); [ exact Hnext | lia | exact Hl ]. }
    specialize (Hgrow Hd).
    destruct (escape_next sc);
      [ apply (IH (read ++ [c])); [ exact Hnext | intros _; exact Hgrow | exact Hl ] | ].
    destruct ((c =? BACKSLASH) && in_string sc);
      [ apply (IH (read ++ [c])); [ exact Hnext | intros _; exact Hgrow | exact Hl ] | ].
    destruct (c =? QUOTE);
      [ apply (IH (read ++ [c])); [ exact Hnext | intros _; exact Hgrow | exact Hl ] | ].
    destruct (negb (in_string sc));
      [ | apply (IH (read ++ [c])); [ exact Hnext | intros _; exact Hgrow | exact Hl ] ].
    destruct (c =? LBRACE);
      [ apply (IH (read ++ [c])); [ exact Hnext | intros _; exact Hgrow | exact Hl ] | ].
    destruct (Z.eqb_spec c RBRACE) as [Hc | _];
      [ | apply (IH (read ++ [c])); [ exact Hnext | intros _; exact Hgrow | exact Hl ] ].
    destruct (Z.eqb_spec (brace_depth sc - 1) 0) as [Hlast | _];
      [ | apply (IH (read ++ [c])); [ exact Hnext | intros _; exact Hgrow | exact Hl ] ].
    apply (IH (read ++ [c])); [ exact Hnext | cbn [brace_depth]; lia | ].
    apply Forall_app. split; [ exact Hl | ]. constructor; [ | constructor ].
    destruct Hgrow as (before & inner & E1 & E2).
    destruct (Hopen Hd) as (before' & inner' & E1' & E2').
    split.
    + exists inner'. rewrite E2', Hc. reflexivity.
    + exists before, text. rewrite Hnext, E1, <- !app_assoc. reflexivity.
Qed.

(** Whatever the text, every buffer the scanner hands over starts
    with an opening brace, ends with a closing brace, and stands in the
    text as it is, after the first opening bracket: the scanner never puts
    together, alters or invents text. *)
Theorem candidates_are_braced_pieces (text : pystr) :
  Forall (fun buf =>
            braced buf
            /\ exists pre rest, seek_array text = Some rest
                                /\ text = pre ++ LBRACKET :: rest
                                /\ piece_of rest buf)
    (candidates text).
Proof.
  unfold candidates. destruct (seek_array text) as [rest |] eqn:Hseek; [ | constructor ].
  destruct (seek_array_some _ _ Hseek) as (pre & _ & Htext).
  eapply Forall_impl;
    [ | apply (scan_loop_pieces rest rest [] scanner0 []);
        [ reflexivity | cbn [scanner0 brace_depth]; lia | constructor ] ].
  cbn beta. intros buf [Hb Hp]. split; [ exact Hb | ].
  exists pre, rest. auto.
Qed.

Section AnyInput.
Context {RT : Runtime}.
Variable conn : connection.
Variables instances_dict companies_dict : refs.
Variable batch_size : Z.

(** The array starts at the first opening bracket of the file:
    without one nothing is loaded, 0 is returned and the missing array is
    reported, whatever objects the text holds; with one, what stands
    before it has no influence on the load. *)
Theorem array_starts_at_first_bracket (pre t : pystr) :
  ~ In LBRACKET pre ->
  stream_load_messages conn instances_dict companies_dict batch_size pre
  = (0, {| batch := []; total_messages := 0; commits := []; writes := 0;
           printed := [NoArray] |})
  /\ candidates pre = []
  /\ stream_load_messages conn instances_dict companies_dict batch_size
       (pre ++ LBRACKET :: t)
     = stream_load_messages conn instances_dict companies_dict batch_size (LBRACKET :: t)
  /\ candidates (pre ++ LBRACKET :: t) = candidates (LBRACKET :: t).
Proof.
  intros Hpre. unfold stream_load_messages, candidates.
  rewrite (seek_array_none _ Hpre), (seek_array_prefix _ _ Hpre).
  cbn [seek_array]. rewrite Z.eqb_refl. repeat split.
Qed.

(** What the loop keeps on any store: the batches written and the rows
    waiting make up, in order, the rows decoded so far. *)
Lemma fold_any_store bufs :
  forall st,
  let st' := fold_left (on_object conn instances_dict companies_dict batch_size) bufs st in
  List.concat (commits st') ++ batch st'
  = List.concat (commits st) ++ batch st ++ rows_of instances_dict companies_dict bufs
  /\ total_messages st'
     = total_messages st
       + Z.of_nat (List.length (rows_of instances_dict companies_dict bufs))
  /\ (In ErrorReported (printed st') -> In ErrorReported (printed st)).
Proof.
  induction bufs as [| buf bufs IH]; intros st; cbn [fold_left rows_of flat_map].
  - cbv zeta. rewrite app_nil_r. split; [ reflexivity | split; [ cbn; lia | auto ] ].
  - fold (rows_of instances_dict companies_dict bufs).
    specialize (IH (on_object conn instances_dict companies_dict batch_size st buf)).
    cbv zeta in IH |- *. destruct IH as (Hrows & Htotal & Hprinted).
    rewrite Hrows, Htotal. clear Hrows Htotal.
    unfold on_object in *.
    destruct (decode_row instances_dict companies_dict buf) as [r |].
    + cbv zeta in *.
      destruct (batch_size <=? Z.of_nat (List.length (batch st ++ [r])));
        [ destruct (conn (writes st) (batch st ++ [r])) | ];
        cbn [batch commits total_messages printed] in *;
        (split;
         [ rewrite ?concat_app; cbn [List.concat app];
           rewrite ?app_nil_r, <- ?app_assoc; reflexivity
         | split;
           [ cbn [List.length app]; lia
           | intros H; specialize (Hprinted H); try assumption ] ]).
      apply in_app_or in Hprinted as [H1 | [H1 | []]]; [ assumption | discriminate ].
    + cbn [app]. split; [ reflexivity | split; [ cbn [List.length]; lia | assumption ] ].
Qed.

(** Whatever the text, the batch size and the store (as long as a
    write that is refused stores nothing), the rows in the store at the
    end are the first rows decoded, in the order of the input, each once:
    all of them when the load returns its count, which is then their
    number; and when rows are missing, the load has returned 0 and
    reported an error. *)
Theorem stored_rows_are_a_prefix (text : pystr) :
  let result := stream_load_messages conn instances_dict companies_dict batch_size text in
  let rows := rows_of instances_dict companies_dict (candidates text) in
  exists lost,
    List.concat (commits (snd result)) ++ lost = rows
    /\ (lost = [] /\ fst result = Z.of_nat (List.length rows)
        \/ lost <> [] /\ fst result = 0 /\ In ErrorReported (printed (snd result))).
Proof.
  cbv zeta. unfold stream_load_messages, candidates.
  destruct (seek_array text) as [rest |]; [ | exists []; split; [ reflexivity | now left ] ].
  pose proof (scan_loop_collect _
                (on_object conn instances_dict companies_dict batch_size)
                rest scanner0 [] loader0) as Hscan.
  cbn [fold_left] in Hscan. rewrite Hscan. clear Hscan.
  set (bufs := scan_loop (fun l buf => l ++ [buf]) scanner0 [] rest).
  destruct (fold_any_store bufs loader0) as (Hrows & Htotal & _).
  cbv zeta in Hrows, Htotal. cbn [loader0 commits batch total_messages List.concat app] in *.
  set (st := fold_left (on_object conn instances_dict companies_dict batch_size)
               bufs loader0) in *.
  unfold finish. destruct (batch st) as [| r waiting] eqn:Hbatch.
  - exists []. cbn [fst snd commits]. split; [ exact Hrows | left; split; [ reflexivity | lia ] ].
  - destruct (conn (writes st) (r :: waiting)).
    + exists (r :: waiting). cbn [fst snd commits printed].
      split; [ exact Hrows | right ].
      split; [ discriminate | split; [ reflexivity | ] ].
      apply in_or_app. right. now left.
    + exists []. cbn [fst snd commits]. rewrite app_nil_r, concat_app.
      cbn [List.concat]. rewrite app_nil_r.
      split; [ exact Hrows | left; split; [ reflexivity | lia ] ].
Qed.

End AnyInput.

Lemma array_starts_at_first_bracket_witness :
  ~ In LBRACKET (js "{'messages': ")
  /\ stream_load_messages accepting no_refs no_refs 5000 (js "{'messages': ")
     = (0, {| batch := []; total_messages := 0; commits := []; writes := 0;
              printed := [NoArray] |})
  /\ candidates (js "{'messages': ") = []
  /\ stream_load_messages accepting no_refs no_refs 5000
       (js "{'messages': " ++ LBRACKET :: js "{'body':'a'}]}")
     = stream_load_messages accepting no_refs no_refs 5000 (LBRACKET :: js "{'body':'a'}]}")
  /\ candidates (js "{'messages': " ++ LBRACKET :: js "{'body':'a'}]}")
     = candidates (LBRACKET :: js "{'body':'a'}]}").
Proof.
  assert (Hpre : ~ In LBRACKET (js "{'messages': "))
    by (vm_compute; intuition discriminate).
  split; [ exact Hpre | ].
  exact (array_starts_at_first_bracket accepting no_refs no_refs 5000 _
           (js "{'body':'a'}]}") Hpre).
Defined.

(** ** Identifiers *)

Section IdFacts.
Context {RT : Runtime}.

Lemma dict_get_some_nonempty (d : dict) k v : dict_get d k = Some v -> truthy (PDict d) = true.
Proof. destruct d; [ discriminate | reflexivity ]. Qed.

Lemma extract_id_present obj key v :
  dict_get obj key = Some v ->
  extract_id obj key
  = match unwrap_oid v with Some oid => oid | None => PStr (py_str v) end.
Proof.
  intros H. unfold extract_id.
  rewrite (dict_get_some_nonempty _ _ _ H), H. reflexivity.
Qed.

Lemma extract_foreign_key_present obj key more v :
  dict_get obj key = Some v ->
  extract_foreign_key obj (key :: more)
  = match unwrap_oid v with
    | Some oid => oid
    | None => if truthy v then PStr (py_str v) else PNone
    end.
Proof.
  intros H. unfold extract_foreign_key.
  rewrite (dict_get_some_nonempty _ _ _ H). cbn [negb first_key]. rewrite H. reflexivity.
Qed.

(** An identifier written as a bare string and the same identifier
    written in the wrapper [{"$oid": ...}] are read alike, by [extract_id]
    and by [extract_foreign_key]: both give the string itself, so a
    message and a reference object meet whichever form each one uses. The
    two differ on the empty string only: [extract_foreign_key] reads a
    bare empty string as no identifier. *)
Theorem bare_and_wrapped_ids_agree (obj : dict) (key : pystr) (more : list pystr)
    (v : pyval) (s : pystr) :
  dict_get obj key = Some v ->
  id_payload v = PStr s ->
  extract_id obj key = PStr s
  /\ extract_foreign_key obj (key :: more)
     = match v, s with
       | PStr _, [] => PNone
       | _, _ => PStr s
       end.
Proof.
  intros Hget Hid.
  rewrite (extract_id_present _ _ _ Hget), (extract_foreign_key_present _ _ more _ Hget).
  unfold id_payload in Hid.
  destruct (unwrap_oid v) as [oid |] eqn:Hoid.
  - subst oid. split; [ reflexivity | ].
    destruct v; try discriminate. reflexivity.
  - subst v. cbn [py_str truthy]. split; [ reflexivity | ]. destruct s; reflexivity.
Qed.

(** [extract_foreign_key] looks at one key only, the first of its
    list that the object has: whatever that key holds, null or an empty
    value too, the keys after it are not read. And [extract_id] gives the
    text of whatever a key holds outside the wrapper, so a field that is
    present is never read as null: a null gives the string ['None']. *)
Theorem first_present_key_decides (obj : dict) (key : pystr) (more : list pystr) (v : pyval) :
  dict_get obj key = Some v ->
  extract_foreign_key obj (key :: more) = extract_foreign_key obj [key]
  /\ (truthy v = false -> unwrap_oid v = None ->
      extract_foreign_key obj (key :: more) = PNone
      /\ extract_id obj key = PStr (py_str v)
      /\ extract_id obj key <> PNone).
Proof.
  intros Hget.
  rewrite (extract_foreign_key_present _ _ more _ Hget),
          (extract_foreign_key_present _ _ [] _ Hget),
          (extract_id_present _ _ _ Hget).
  split; [ reflexivity | ].
  intros Hv Hoid. rewrite Hoid, Hv. repeat split. discriminate.
Qed.

End IdFacts.

Lemma bare_and_wrapped_ids_agree_witness :
  dict_get [(u "instance", PDict [(u "$oid", PStr (u "65a1"))])] (u "instance")
  = Some (PDict [(u "$oid", PStr (u "65a1"))])
  /\ id_payload (PDict [(u "$oid", PStr (u "65a1"))]) = PStr (u "65a1")
  /\ extract_id [(u "instance", PDict [(u "$oid", PStr (u "65a1"))])] (u "instance")
     = PStr (u "65a1")
  /\ extract_foreign_key [(u "instance", PDict [(u "$oid", PStr (u "65a1"))])]
       (u "instance" :: map u ["instanceId"; "instance_id"])
     = match PDict [(u "$oid", PStr (u "65a1"))], u "65a1" with
       | PStr _, [] => PNone
       | _, _ => PStr (u "65a1")
       end.
Proof.
  assert (H1 : dict_get [(u "instance", PDict [(u "$oid", PStr (u "65a1"))])] (u "instance")
               = Some (PDict [(u "$oid", PStr (u "65a1"))])) by reflexivity.
  assert (H2 : id_payload (PDict [(u "$oid", PStr (u "65a1"))]) = PStr (u "65a1"))
    by reflexivity.
  split; [ exact H1 | split; [ exact H2 | ] ].
  exact (bare_and_wrapped_ids_agree _ _ (map u ["instanceId"; "instance_id"]) _ _ H1 H2).
Defined.

Lemma first_present_key_decides_witness :
  dict_get [(u "instance", PNone); (u "instanceId", PStr (u "65a1"))] (u "instance")
  = Some PNone
  /\ extract_foreign_key [(u "instance", PNone); (u "instanceId", PStr (u "65a1"))]
       (u "instance" :: map u ["instanceId"; "instance_id"])
     = extract_foreign_key [(u "instance", PNone); (u "instanceId", PStr (u "65a1"))]
         [u "instance"]
  /\ (truthy PNone = false -> unwrap_oid PNone = None ->
      extract_foreign_key [(u "instance", PNone); (u "instanceId", PStr (u "65a1"))]
        (u "instance" :: map u ["instanceId"; "instance_id"]) = PNone
      /\ extract_id [(u "instance", PNone); (u "instanceId", PStr (u "65a1"))] (u "instance")
         = PStr (py_str PNone)
      /\ extract_id [(u "instance", PNone); (u "instanceId", PStr (u "65a1"))] (u "instance")
         <> PNone).
Proof.
  assert (H1 : dict_get [(u "instance", PNone); (u "instanceId", PStr (u "65a1"))]
                 (u "instance") = Some PNone) by reflexivity.
  split; [ exact H1 | ].
  exact (first_present_key_decides _ _ (map u ["instanceId"; "instance_id"]) _ H1).
Defined.

(** ** The row of a message *)

Ltac open_build_row :=
  unfold build_row;
  destruct (if truthy _ then refs_get _ _ else Some None) as [instance |];
    [ | discriminate ];
  match goal with
  | |- match ?x with _ => _ end = _ -> _ =>
      destruct x as [[company_id company] |]; [ | discriminate ]
  end;
  intros [= <-].

Section RowTimestamp.
Context {RT : Runtime}.

(** The wrapper [{"$date": ...}] is transparent: a number that is
    not zero and a string that is not empty decode alike inside it and
    bare. And [createdAt] comes first: when it holds anything that counts
    as true, the row's timestamp is what [createdAt] decodes to, null if
    it does not decode, and [timestamp] is not read; [timestamp] is read
    only when [createdAt] is missing, null or zero or empty. The date and
    the hour of the row are those of that timestamp. *)
Theorem created_at_comes_first (instances_dict companies_dict : refs) (msg : dict) (r : row) :
  build_row instances_dict companies_dict msg = Some r ->
  (forall d v, dict_get d (u "$date") = Some v -> truthy v = true -> hashable v = true ->
               parse_timestamp (PDict d) = parse_timestamp v)
  /\ timestamp r
     = (if truthy (get_default msg (u "createdAt") PNone)
        then parse_timestamp (get_default msg (u "createdAt") PNone)
        else parse_timestamp (get_default msg (u "timestamp") PNone))
  /\ row_date r = option_map (fun t => (year t, month t, day t)) (timestamp r)
  /\ row_hour r = option_map hour (timestamp r).
Proof.
  intros H. split.
  - intros d v Hget Hv Hh. unfold parse_timestamp at 1.
    rewrite (dict_get_some_nonempty _ _ _ Hget). cbn [negb]. rewrite Hget.
    unfold parse_timestamp. rewrite Hv. cbn [negb].
    destruct v; try reflexivity; discriminate.
  - revert H. open_build_row. cbn [timestamp row_date row_hour].
    unfold py_or. destruct (truthy (get_default msg (u "createdAt") PNone));
      repeat split.
Qed.

End RowTimestamp.

Lemma created_at_comes_first_witness :
  let msg := [(u "createdAt", PStr (u "yesterday")); (u "timestamp", PInt 1700000000)] in
  option_map timestamp (build_row no_refs no_refs msg) = Some None
  /\ parse_timestamp (get_default msg (u "timestamp") PNone)
     = Some {| year := 2023; month := 11; day := 14;
               hour := 22; minute := 13; second := 20; microsecond := 0 |}
  /\ parse_timestamp (PDict [(u "$date", PInt 1700000000)]) = parse_timestamp (PInt 1700000000).
Proof.
  intros msg.
  destruct (build_row no_refs no_refs msg) as [r |] eqn:Hrow; [ | discriminate ].
  destruct (created_at_comes_first no_refs no_refs msg r Hrow) as (Hwrap & Hts & _).
  split; [ | split ].
  - cbn [option_map]. rewrite Hts. vm_compute. reflexivity.
  - vm_compute. reflexivity.
  - apply Hwrap; reflexivity.
Defined.

(** ** The lookups of the customer phone *)

Section PhoneLookups.
Context {RT : Runtime}.

Lemma first_truthy_falsy d fields :
  truthy (first_truthy d fields PNone) = false ->
  forall field, In field fields ->
  match dict_get d field with Some v => truthy v = false | None => True end.
Proof.
  induction fields as [| f fields IH]; cbn [first_truthy]; intros H field Hin.
  - destruct Hin.
  - destruct (dict_get d f) as [v |] eqn:Hf.
    + destruct (truthy v) eqn:Hv; [ congruence | ].
      destruct Hin as [<- | Hin]; [ now rewrite Hf | now apply IH ].
    + destruct Hin as [<- | Hin]; [ now rewrite Hf | now apply IH ].
Qed.

Lemma try_parent_falsy msg phone parent :
  match dict_get msg parent with Some v => truthy v = false | None => True end ->
  try_parent msg phone parent = phone.
Proof.
  unfold try_parent. destruct (dict_get msg parent) as [[| | | | | | p] |]; try reflexivity.
  destruct p; [ reflexivity | discriminate ].
Qed.

(** The last lookup of the customer phone goes over the objects
    nested under ['message'], ['chat'], ['contact'] and ['sender'], but
    the last two can never give anything: a ['contact'] or ['sender'] that
    is an object with a field is taken whole by the first lookup (it is a
    flat field that counts as true) and ends the search with null, since
    it is no string. So the phone of every message is the one found with
    ['message'] and ['chat'] alone; and a flat field that holds a number
    or an object gives null whatever the other locations hold. *)
Theorem nested_contact_and_sender_are_never_read (msg : dict) :
  find_phone msg = find_phone_message_chat msg
  /\ extract_customer_phone msg = clean_phone (find_phone_message_chat msg)
  /\ (truthy (first_truthy msg possible_fields PNone) = true ->
      (forall s, first_truthy msg possible_fields PNone <> PStr s) ->
      extract_customer_phone msg = None).
Proof.
  assert (Hsame : find_phone msg = find_phone_message_chat msg).
  { unfold find_phone, find_phone_message_chat.
    destruct (truthy (first_truthy msg possible_fields PNone)) eqn:Hflat;
      cbn [negb]; [ rewrite Hflat; reflexivity | ].
    set (phone := match dict_get msg (u "key") with
                  | Some (PDict key) =>
                      first_truthy key key_fields (first_truthy msg possible_fields PNone)
                  | _ => first_truthy msg possible_fields PNone
                  end).
    destruct (truthy phone); cbn [negb]; [ reflexivity | ].
    change parents with (map u ["message"; "chat"] ++ map u ["contact"; "sender"]).
    rewrite fold_left_app. cbn [map fold_left].
    pose proof (first_truthy_falsy _ _ Hflat) as Hfields.
    rewrite (try_parent_falsy msg _ (u "contact"))
      by (apply Hfields; vm_compute; tauto).
    rewrite (try_parent_falsy msg _ (u "sender"))
      by (apply Hfields; vm_compute; tauto).
    reflexivity. }
  split; [ exact Hsame | split ].
  - unfold extract_customer_phone. now rewrite Hsame.
  - intros Hflat Hstr. unfold extract_customer_phone, find_phone.
    rewrite Hflat. cbn [negb]. rewrite Hflat.
    destruct (first_truthy msg possible_fields PNone); try reflexivity.
    now destruct (Hstr s).
Qed.

End PhoneLookups.

(** ** Labels *)

Lemma first_label_first_match table text fallback :
  first_match table text fallback (first_label table text fallback).
Proof.
  induction table as [| [label keywords] table IH]; cbn [first_label].
  - right. split; [ reflexivity | constructor ].
  - fold (hit text keywords). destruct (hit text keywords) eqn:Hhit.
    + left. exists [], keywords, table.
      split; [ reflexivity | split; [ assumption | constructor ] ].
    + remember (first_label table text fallback) as l eqn:Hl. clear Hl.
      destruct IH as [(before & kws & after & E & Hkws & Hbefore) | [E Hnone]].
      * left. exists ((label, keywords) :: before), kws, after.
        split; [ now rewrite E | split; [ assumption | now constructor ] ].
      * right. split; [ exact E | now constructor ].
Qed.

Lemma first_label_in table text fallback :
  In (first_label table text fallback) (map fst table ++ [fallback]).
Proof.
  induction table as [| [label keywords] table IH]; cbn [first_label map app fst].
  - now left.
  - destruct (existsb _ keywords); [ now left | now right ].
Qed.

Lemma count_words_bound s :
  forall in_word,
  0 <= count_words in_word s
  /\ 2 * count_words in_word s + (if in_word then 1 else 0) <= Z.of_nat (List.length s) + 1.
Proof.
  induction s as [| c s IH]; intros in_word; cbn [count_words List.length].
  - destruct in_word; lia.
  - destruct (py_isspace c).
    + specialize (IH false). cbn beta iota in IH. destruct in_word; lia.
    + specialize (IH true). cbn beta iota in IH. destruct in_word; lia.
Qed.

Section RowFacts.
Context {RT : Runtime}.

(** A label is never given without a keyword: for a body that is
    not empty, the category, the intent and the urgency are each the first
    label of their table, in the order of the source, one of whose
    keywords occurs in the lower-cased text of the body, and the fallback
    (['Other'], ['General'], ['Normal']) exactly when no keyword of the
    table occurs. *)
Theorem classifiers_take_the_first_match (body : pyval) :
  truthy body = true ->
  first_match categories (str_lower (py_str body)) (u "Other") (categorize_message body)
  /\ first_match intents (str_lower (py_str body)) (u "General") (detect_intent body)
  /\ first_match [(u "Urgent", urgent); (u "High", high)] (str_lower (py_str body))
       (u "Normal") (detect_urgency body).
Proof.
  intros Hbody. unfold categorize_message, detect_intent, detect_urgency.
  rewrite Hbody. cbn [negb]. repeat split; apply first_label_first_match.
Qed.

Lemma flag_01 b : flag b = 0 \/ flag b = 1.
Proof. destruct b; [ now right | now left ]. Qed.

Lemma body_or_empty msg :
  py_or (get_default msg (u "body") (PStr [])) (PStr []) = PStr []
  \/ truthy (py_or (get_default msg (u "body") (PStr [])) (PStr [])) = true.
Proof.
  unfold py_or. destruct (truthy (get_default msg (u "body") (PStr []))) eqn:H;
    [ now right | now left ].
Qed.

(** What every row keeps, whatever the message: the direction is
    one of two words, the six flags are 0 or 1, the body is the empty
    string or a value that counts as true, its length is 0 exactly for the
    empty string, the words are at most half the characters rounded up,
    and the four labels are labels of their tables or the fallbacks. *)
Theorem row_is_well_formed (instances_dict companies_dict : refs) (msg : dict) (r : row) :
  build_row instances_dict companies_dict msg = Some r ->
  (direction r = u "Outgoing" \/ direction r = u "Incoming")
  /\ Forall (fun f => f = 0 \/ f = 1)
       [is_broadcast r; is_deleted r; is_group r; has_question r; has_emoji r; has_link r]
  /\ (body r = PStr [] \/ truthy (body r) = true)
  /\ (body_length r = 0 <-> body r = PStr [])
  /\ 0 <= word_count r <= body_length r
  /\ 2 * word_count r <= body_length r + 1
  /\ In (category r) (map fst categories ++ [u "Other"])
  /\ In (sentiment r) [u "Positive"; u "Negative"; u "Neutral"]
  /\ In (urgency r) [u "Urgent"; u "High"; u "Normal"]
  /\ In (intent r) (map fst intents ++ [u "General"]).
Proof.
  open_build_row.
  cbn [direction is_broadcast is_deleted is_group has_question has_emoji has_link
       body body_length word_count category sentiment urgency intent].
  set (b := py_or (get_default msg (u "body") (PStr [])) (PStr [])).
  assert (Hb : b = PStr [] \/ truthy b = true) by apply body_or_empty.
  split; [ destruct (truthy (get_default msg (u "fromMe") (PBool false))); auto | ].
  split; [ repeat (constructor; [ apply flag_01 | ]); constructor | ].
  split; [ exact Hb | ].
  assert (Hlen : truthy b = true -> 0 < Z.of_nat (List.length (py_str b))).
  { intros Ht. pose proof (py_str_nonempty _ Ht) as Hne.
    destruct (py_str b); [ congruence | cbn [List.length]; lia ]. }
  split; [ | split; [ | split ] ].
  - destruct Hb as [-> | Ht]; [ cbn [truthy]; tauto | ].
    rewrite Ht. split; [ specialize (Hlen Ht); lia | ].
    intros E. rewrite E in Ht. discriminate.
  - destruct (truthy b) eqn:Ht; [ | lia ].
    pose proof (count_words_bound (py_str b) false) as [H0 H1].
    specialize (Hlen eq_refl). cbn beta iota in H1. lia.
  - destruct (truthy b) eqn:Ht; [ | lia ].
    pose proof (count_words_bound (py_str b) false) as [H0 H1].
    cbn beta iota in H1. lia.
  - split; [ | split; [ | split ] ].
    + unfold categorize_message. destruct (truthy b); cbn [negb];
        [ apply first_label_in | apply in_or_app; right; now left ].
    + unfold detect_sentiment. destruct (truthy b); cbn [negb]; [ | cbn; tauto ].
      cbv zeta. destruct (_ >? _); [ cbn; tauto | ].
      destruct (_ >? _); cbn; tauto.
    + unfold detect_urgency. destruct (truthy b); cbn [negb]; [ | cbn; tauto ].
      apply (first_label_in [(u "Urgent", urgent); (u "High", high)]).
    + unfold detect_intent. destruct (truthy b); cbn [negb];
        [ apply first_label_in | apply in_or_app; right; now left ].
Qed.

(** A message without a body, or whose body is null, zero, false
    or empty, gets the empty string as its body, length 0, no words, no
    question mark, emoji or link, and the four fallback labels. *)
Theorem missing_body_gives_the_defaults
    (instances_dict companies_dict : refs) (msg : dict) (r : row) :
  truthy (get_default msg (u "body") (PStr [])) = false ->
  build_row instances_dict companies_dict msg = Some r ->
  body r = PStr [] /\ body_length r = 0 /\ word_count r = 0
  /\ has_question r = 0 /\ has_emoji r = 0 /\ has_link r = 0
  /\ category r = u "Other" /\ sentiment r = u "Neutral"
  /\ urgency r = u "Normal" /\ intent r = u "General".
Proof.
  intros Hbody. open_build_row.
  cbn [has_question has_emoji has_link
       body body_length word_count category sentiment urgency intent].
  unfold py_or. rewrite Hbody.
  unfold categorize_message, detect_sentiment, detect_urgency, detect_intent.
  cbn [truthy negb py_str].
  repeat split.
Qed.

End RowFacts.

Lemma classifiers_take_the_first_match_witness :
  truthy (PStr (u "Hello, what is the PRICE?")) = true
  /\ categorize_message (PStr (u "Hello, what is the PRICE?")) = u "Inquiry/Question"
  /\ detect_intent (PStr (u "Hello, what is the PRICE?")) = u "Ask Price"
  /\ detect_urgency (PStr (u "Hello, what is the PRICE?")) = u "Normal"
  /\ first_match categories (str_lower (py_str (PStr (u "Hello, what is the PRICE?"))))
       (u "Other") (categorize_message (PStr (u "Hello, what is the PRICE?"))).
Proof.
  split; [ reflexivity | ].
  split; [ vm_compute; reflexivity | ].
  split; [ vm_compute; reflexivity | ].
  split; [ vm_compute; reflexivity | ].
  exact (proj1 (classifiers_take_the_first_match (PStr (u "Hello, what is the PRICE?"))
                  eq_refl)).
Defined.

Lemma row_is_well_formed_witness :
  exists r,
    build_row no_refs no_refs [(u "body", PInt 2024); (u "fromMe", PInt 1)] = Some r
    /\ (direction r = u "Outgoing" /\ body r = PInt 2024
        /\ body_length r = 4 /\ word_count r = 1)
    /\ 2 * word_count r <= body_length r + 1.
Proof.
  assert (H : exists r,
            build_row no_refs no_refs [(u "body", PInt 2024); (u "fromMe", PInt 1)] = Some r
            /\ (direction r = u "Outgoing" /\ body r = PInt 2024
                /\ body_length r = 4 /\ word_count r = 1)).
  { eexists. split; [ vm_compute; reflexivity | repeat split ]. }
  destruct H as (r & Hrow & Hfields).
  exists r. split; [ exact Hrow | split; [ exact Hfields | ] ].
  exact (proj1 (proj2 (proj2 (proj2 (proj2 (proj2
           (row_is_well_formed no_refs no_refs _ r Hrow))))))).
Defined.

Lemma missing_body_gives_the_defaults_witness :
  exists r,
    truthy (get_default [(u "body", PNone); (u "type", PStr (u "image"))] (u "body") (PStr []))
    = false
    /\ build_row no_refs no_refs [(u "body", PNone); (u "type", PStr (u "image"))] = Some r
    /\ body r = PStr [] /\ body_length r = 0 /\ category r = u "Other".
Proof.
  destruct (build_row no_refs no_refs [(u "body", PNone); (u "type", PStr (u "image"))])
    as [r |] eqn:Hrow; [ | discriminate ].
  exists r. split; [ reflexivity | split; [ reflexivity | ] ].
  destruct (missing_body_gives_the_defaults no_refs no_refs
              [(u "body", PNone); (u "type", PStr (u "image"))] r eq_refl Hrow)
    as (Hb & Hl & _ & _ & _ & _ & Hc & _).
  auto.
Defined.

(** ** The files of [main] *)

Section FileFacts.
Context {RT : Runtime}.

(** The number typed at the menu, over the names of the listing
    that end in [.json]: the numbers 1 to n pick the files as they are
    listed; 0 and the negative numbers down to 1 - n are taken too and
    count from the end of the list (0 picks the last file); every other
    number, and what is no number, is an invalid selection. The file
    picked is a name of the listing that ends in [.json]. *)
Theorem menu_number_picks_a_file (listing : list pystr) (k : Z) :
  let files := json_files listing in
  let n := Z.of_nat (List.length files) in
  (1 <= k <= n ->
   select_messages_file files (Some k) = nth_error files (Z.to_nat (k - 1))
   /\ select_messages_file files (Some k) <> None)
  /\ (1 - n <= k <= 0 ->
      select_messages_file files (Some k) = nth_error files (Z.to_nat (n + k - 1))
      /\ select_messages_file files (Some k) <> None)
  /\ (n < k \/ k < 1 - n -> select_messages_file files (Some k) = None)
  /\ select_messages_file files None = None
  /\ (forall f, select_messages_file files (Some k) = Some f ->
        In f listing /\ endswith (u ".json") f = true).
Proof.
  intros files n. unfold select_messages_file, py_index. fold n.
  split; [ | split; [ | split; [ | split ] ] ].
  - intros Hk. destruct (Z.ltb_spec (k - 1) 0); [ lia | ].
    split; [ reflexivity | apply nth_error_Some; lia ].
  - intros Hk. destruct (Z.ltb_spec (k - 1) 0); [ | lia ].
    destruct (Z.ltb_spec (k - 1 + n) 0); [ lia | ].
    split; [ f_equal; f_equal; lia | apply nth_error_Some; lia ].
  - intros [Hk | Hk].
    + destruct (Z.ltb_spec (k - 1) 0); [ lia | ].
      apply nth_error_None. lia.
    + destruct (Z.ltb_spec (k - 1) 0); [ | lia ].
      destruct (Z.ltb_spec (k - 1 + n) 0); [ reflexivity | lia ].
  - reflexivity.
  - intros f Hf.
    assert (Hin : In f files).
    { destruct (k - 1 <? 0); [ destruct (k - 1 + n <? 0); [ discriminate | ] | ];
        eapply nth_error_In; exact Hf. }
    apply filter_In in Hin. exact Hin.
Qed.

Lemma detect_files_snoc files f messages_file :
  detect_files (files ++ [f]) messages_file
  = detect_file messages_file (detect_files files messages_file) f.
Proof. unfold detect_files. now rewrite fold_left_app. Qed.

(** The reference files are found by their names: the companies
    file is the last name of the listing, other than the messages file,
    whose lower-cased form contains ['compan']; the instances file the
    last such name that contains ['instance'] and not ['compan']; the
    broadcasts file the last that contains ['broadcast'] and neither of
    the two. The messages file is never taken for a reference file. *)
Theorem reference_files_by_name (files : list pystr) (messages_file : pystr) :
  let other f := negb (str_eqb f messages_file) in
  let has w f := contains (u w) (str_lower f) in
  companies_file (detect_files files messages_file)
  = find (fun f => other f && has "compan" f) (rev files)
  /\ instances_file (detect_files files messages_file)
     = find (fun f => other f && negb (has "compan" f) && has "instance" f) (rev files)
  /\ broadcasts_file (detect_files files messages_file)
     = find (fun f => other f && negb (has "compan" f) && negb (has "instance" f)
                      && has "broadcast" f) (rev files).
Proof.
  intros other has. subst other has. cbv beta.
  induction files as [| f files IH] using rev_ind.
  - repeat split.
  - rewrite detect_files_snoc, rev_unit. cbn [find].
    destruct IH as (Hc & Hi & Hb). unfold detect_file.
    destruct (str_eqb f messages_file); cbn [negb andb]; [ auto | ].
    cbv zeta.
    destruct (contains (u "compan") (str_lower f)); cbn [negb andb];
      [ cbn [companies_file instances_file broadcasts_file]; auto | ].
    destruct (contains (u "instance") (str_lower f)); cbn [negb andb];
      [ cbn [companies_file instances_file broadcasts_file]; auto | ].
    destruct (contains (u "broadcast") (str_lower f)); cbn [negb andb];
      [ cbn [companies_file instances_file broadcasts_file]; auto | auto ].
Qed.

End FileFacts.

(** ** The lookup dictionaries *)

Lemma str_eqb_eq a b : str_eqb a b = true -> a = b.
Proof.
  revert b. induction a as [| x a IH]; intros [| y b]; cbn [str_eqb]; try discriminate.
  - reflexivity.
  - intros H. apply andb_true_iff in H as [Hx Hab].
    apply Z.eqb_eq in Hx. f_equal; auto.
Qed.

Lemma find_app_first (B : Type) (p : B -> bool) l1 l2 :
  find p (l1 ++ l2) = match find p l1 with Some x => Some x | None => find p l2 end.
Proof.
  induction l1 as [| x l1 IH]; cbn [app find]; [ reflexivity | ].
  destruct (p x); [ reflexivity | exact IH ].
Qed.

Section TableFacts.
Context {RT : Runtime}.

Lemma key_eqb_str k s :
  key_eqb k (PStr s) = match k with PStr t => str_eqb t s | _ => false end.
Proof. destruct k as [| b | n | f | t | l | d]; reflexivity. Qed.

Lemma str_key_eqb s k :
  key_eqb (PStr s) k = match k with PStr t => str_eqb s t | _ => false end.
Proof. destruct k as [| b | n | f | t | l | d]; reflexivity. Qed.

(** Insert, then look up a string. *)
Lemma table_get_set t k v s :
  table_get (table_set t k v) (PStr s)
  = if key_eqb k (PStr s) then Some v else table_get t (PStr s).
Proof.
  induction t as [| [k' v'] t IH]; cbn [table_set table_get].
  - reflexivity.
  - destruct (key_eqb k' k) eqn:Hk'; cbn [table_get].
    + assert (E : key_eqb k' (PStr s) = key_eqb k (PStr s)).
      { rewrite !key_eqb_str.
        destruct k' as [| | | | t' | |], k as [| | | | t0 | |]; try reflexivity;
          try discriminate.
        rewrite str_key_eqb in Hk'. apply str_eqb_eq in Hk'. now subst t0. }
      rewrite E. destruct (key_eqb k (PStr s)); reflexivity.
    + rewrite IH. destruct (key_eqb k' (PStr s)) eqn:H1; [ | reflexivity ].
      destruct (key_eqb k (PStr s)) eqn:H2; [ | reflexivity ].
      rewrite key_eqb_str in H1, H2.
      destruct k' as [| | | | t' | |]; try discriminate.
      destruct k as [| | | | t0 | |]; try discriminate.
      apply str_eqb_eq in H1, H2. subst t' t0.
      rewrite str_key_eqb, str_eqb_refl in Hk'. discriminate.
Qed.

Lemma lookup_entry_none objs : fold_left lookup_entry objs None = None.
Proof. induction objs as [| c objs IH]; [ reflexivity | exact IH ]. Qed.

Lemma has_id_nonempty s d : has_id s d = true -> truthy (PDict d) = true.
Proof. destruct d; [ discriminate | reflexivity ]. Qed.

Lemma dicts_of_cons c objs :
  dicts_of (c :: objs)
  = (match c with PDict d => [d] | _ => @nil dict end) ++ dicts_of objs.
Proof. reflexivity. Qed.

Lemma lookup_entries objs :
  forall t0 t s, s <> [] ->
  fold_left lookup_entry objs (Some t0) = Some t ->
  table_get t (PStr s)
  = match find (has_id s) (rev (dicts_of objs)) with
    | Some d => Some d
    | None => table_get t0 (PStr s)
    end.
Proof.
  induction objs as [| c objs IH]; intros t0 t s Hs; cbn [fold_left].
  - intros [= <-]. reflexivity.
  - rewrite dicts_of_cons, rev_app_distr, find_app_first.
    destruct (lookup_entry (Some t0) c) as [t1 |] eqn:Hentry;
      [ | rewrite lookup_entry_none; discriminate ].
    intros Hfold. rewrite (IH t1 t s Hs Hfold).
    destruct (find (has_id s) (rev (dicts_of objs))); [ reflexivity | ].
    unfold lookup_entry in Hentry.
    destruct (extract_id_of c) as [cid |] eqn:Hcid; [ | discriminate ].
    destruct c as [| b | n | f | str | l | d];
      try (destruct (truthy cid); [ destruct (hashable cid) | ];
           first [ discriminate | now injection Hentry as <- ]).
    assert (Hd : cid = extract_id d (u "_id")).
    { unfold extract_id_of in Hcid. destruct (negb (truthy (PDict d))) eqn:Hempty.
      - injection Hcid as <-. destruct d; [ reflexivity | discriminate ].
      - now injection Hcid as <-. }
    cbn [rev app find]. unfold has_id. rewrite <- Hd.
    destruct (truthy cid) eqn:Htruthy.
    + destruct (hashable cid); [ | discriminate ].
      injection Hentry as <-. rewrite table_get_set, key_eqb_str.
      destruct cid as [| | | | t' | |]; try reflexivity.
      destruct (str_eqb t' s); reflexivity.
    + injection Hentry as <-.
      destruct cid as [| | | | t' | |]; try reflexivity.
      destruct t' as [| x t']; [ | discriminate ].
      destruct s; [ congruence | reflexivity ].
Qed.

Lemma lookup_dict_get (data : pyval) (objs : list pyval) (t : table) (s : pystr) :
  py_iter data = Some objs ->
  lookup_dict data = Some t ->
  s <> [] ->
  table_get t (PStr s) = find (has_id s) (rev (dicts_of objs)).
Proof.
  intros Hiter Hdict Hs. unfold lookup_dict in Hdict. rewrite Hiter in Hdict.
  rewrite (lookup_entries objs [] t s Hs Hdict).
  destruct (find (has_id s) (rev (dicts_of objs))); reflexivity.
Qed.

(** What a lookup dictionary gives for an identifier that is a
    string: the last object of the file whose [_id], bare or in the
    [$oid] wrapper, is that string; of two objects with the same
    identifier the later one is kept. *)
Theorem lookup_finds_the_last_object (data : pyval) (objs : list pyval) (t : table)
    (s : pystr) :
  py_iter data = Some objs ->
  lookup_dict data = Some t ->
  s <> [] ->
  table_get t (PStr s) = find (has_id s) (rev (dicts_of objs))
  /\ (forall d, table_get t (PStr s) = Some d ->
        In (PDict d) objs /\ extract_id d (u "_id") = PStr s).
Proof.
  intros Hiter Hdict Hs.
  pose proof (lookup_dict_get _ _ _ _ Hiter Hdict Hs) as Hget.
  split; [ exact Hget | ].
  intros d Hd. rewrite Hget in Hd. apply find_some in Hd as [Hin Hid].
  split.
  - apply in_rev in Hin. unfold dicts_of in Hin.
    apply in_flat_map in Hin as (c & Hc & Hin).
    destruct c as [| | | | | | d0]; try (now destruct Hin).
    destruct Hin as [-> | []]. exact Hc.
  - unfold has_id in Hid. destruct (extract_id d (u "_id")); try discriminate.
    apply str_eqb_eq in Hid. now subst.
Qed.

Lemma insert_file_data store op file n data n' :
  insert_file store op file n = Some (data, n') -> data = file_data file.
Proof.
  unfold insert_file, file_data. destruct file as [content |]; [ | now intros [= <- _] ].
  cbv zeta. destruct (py_iter (load_json_file content)); [ | discriminate ].
  destruct (fold_left _ _ _) as [m |]; [ | discriminate ].
  destruct (store m Commit); [ discriminate | now intros [= <- _] ].
Qed.

Lemma reference_data_dicts store cfile ifile bfile cd idt :
  reference_data store cfile ifile bfile = Some (cd, idt) ->
  lookup_dict (file_data cfile) = Some cd /\ lookup_dict (file_data ifile) = Some idt.
Proof.
  unfold reference_data.
  destruct (insert_file store company_op cfile 0) as [[companies n1] |] eqn:Hc;
    [ | discriminate ].
  destruct (insert_file store instance_op ifile n1) as [[instances n2] |] eqn:Hi;
    [ | discriminate ].
  destruct (insert_file store broadcast_op bfile n2) as [[broadcasts n3] |];
    [ | discriminate ].
  apply insert_file_data in Hc, Hi. subst companies instances.
  destruct (lookup_dict (file_data cfile)) as [cd' |]; [ | discriminate ].
  destruct (lookup_dict (file_data ifile)) as [idt' |]; [ | discriminate ].
  intros [= <- <-]. auto.
Qed.

Lemma name_of_found s d :
  has_id s d = true -> name_of (Some d) = get_default d (u "name") (PStr (u "Unknown")).
Proof. intros H. unfold name_of. now rewrite (has_id_nonempty _ _ H). Qed.

(** The names of a row come from the reference files. For a
    message whose instance identifier is the string [s]: the instance is
    the last object of the instances file whose [_id] is [s]; the row
    carries its [name] (['Unknown'] when it has none) and its company
    identifier; and when that is a string, the company is the last object
    of the companies file with that [_id] and the row carries its [name].
    Without such an instance the two names are ['Unknown'] and the
    company identifier is null; without such a company its name is
    ['Unknown']. *)
Theorem names_come_from_the_reference_files
    (store : reference_store) (cfile ifile bfile : option (option pystr))
    (cd idt : table) (companies instances : list pyval)
    (msg : dict) (r : row) (s : pystr) :
  reference_data store cfile ifile bfile = Some (cd, idt) ->
  py_iter (file_data cfile) = Some companies ->
  py_iter (file_data ifile) = Some instances ->
  extract_foreign_key msg (map u ["instance"; "instanceId"; "instance_id"]) = PStr s ->
  s <> [] ->
  build_row (table_get idt) (table_get cd) msg = Some r ->
  instance_id r = PStr s
  /\ match find (has_id s) (rev (dicts_of instances)) with
     | None =>
         instance_name r = PStr (u "Unknown") /\ company_id r = PNone
         /\ company_name r = PStr (u "Unknown")
     | Some i =>
         instance_name r = get_default i (u "name") (PStr (u "Unknown"))
         /\ company_id r
            = extract_foreign_key i (map u ["company"; "companyId"; "company_id"])
         /\ forall s', company_id r = PStr s' -> s' <> [] ->
            company_name r
            = match find (has_id s') (rev (dicts_of companies)) with
              | Some c => get_default c (u "name") (PStr (u "Unknown"))
              | None => PStr (u "Unknown")
              end
     end.
Proof.
  intros Href Hcs His Hfk Hs.
  apply reference_data_dicts in Href as [Hcd Hidt].
  unfold build_row. rewrite Hfk.
  assert (Htruthy : truthy (PStr s) = true) by (destruct s; [ congruence | reflexivity ]).
  rewrite Htruthy. unfold refs_get at 1. cbn [hashable].
  rewrite (lookup_dict_get _ _ _ _ His Hidt Hs).
  destruct (find (has_id s) (rev (dicts_of instances))) as [i |] eqn:Hfind.
  - apply find_some in Hfind as [_ Hid].
    rewrite (has_id_nonempty _ _ Hid).
    set (cid := extract_foreign_key i (map u ["company"; "companyId"; "company_id"])).
    unfold refs_get. destruct (hashable cid); cbn [option_map]; [ | discriminate ].
    intros [= <-]. cbn [instance_id instance_name company_id company_name].
    split; [ reflexivity | ].
    split; [ now apply name_of_found with (s := s) | ].
    split; [ reflexivity | ].
    intros s' Hcid Hs'. rewrite Hcid.
    rewrite (lookup_dict_get _ _ _ _ Hcs Hcd Hs').
    destruct (find (has_id s') (rev (dicts_of companies))) as [c |] eqn:Hc;
      [ | reflexivity ].
    apply find_some in Hc as [_ Hc]. now apply name_of_found with (s := s').
  - intros [= <-]. cbn [instance_id instance_name company_id company_name name_of].
    repeat split.
Qed.

End TableFacts.

Section ReferenceEdges.
Context {RT : Runtime}.

Lemma lookup_dict_empty : lookup_dict (PList []) = Some [].
Proof. reflexivity. Qed.

Lemma insert_file_broken store op content n :
  load_json_file content = PList [] ->
  insert_file store op (Some content) n
  = if store n Commit then None else Some (PList [], S n).
Proof. intros H. unfold insert_file. rewrite H. reflexivity. Qed.

(** A reference file that cannot be opened, or whose content
    [json.loads] refuses, is read as an empty list, with no exception, and
    its lookup dictionary is empty. With the companies file broken every
    row has the company name ['Unknown']; with the instances file broken
    every row has the two names ['Unknown'] and a null company; and when
    both are broken, on a store that takes the commits, [main] loads the
    messages as it does without reference data. *)
Theorem broken_reference_file_is_an_empty_one
    (store : reference_store) (conn : connection) (content : option pystr)
    (other broadcasts : option (option pystr)) (text : pystr) :
  match content with Some t => json_loads t = None | None => True end ->
  load_json_file content = PList []
  /\ (forall cd idt,
        reference_data store (Some content) other broadcasts = Some (cd, idt) ->
        cd = []
        /\ forall msg r, build_row (table_get idt) (table_get cd) msg = Some r ->
                         company_name r = PStr (u "Unknown"))
  /\ (forall cd idt,
        reference_data store other (Some content) broadcasts = Some (cd, idt) ->
        idt = []
        /\ forall msg r, build_row (table_get idt) (table_get cd) msg = Some r ->
                         instance_name r = PStr (u "Unknown") /\ company_id r = PNone
                         /\ company_name r = PStr (u "Unknown"))
  /\ ((forall n, store n Commit = false) ->
      main_with_references store conn (Some content) (Some content) None text
      = Some (main conn (table_get []) (table_get []) text)).
Proof.
  intros Hbroken.
  assert (Hload : load_json_file content = PList []).
  { unfold load_json_file. destruct content as [t |]; [ now rewrite Hbroken | reflexivity ]. }
  split; [ exact Hload | split; [ | split ] ].
  - intros cd idt Href. apply reference_data_dicts in Href as [Hcd _].
    cbn [file_data] in Hcd. rewrite Hload, lookup_dict_empty in Hcd.
    injection Hcd as <-. split; [ reflexivity | ].
    intros msg r. unfold build_row.
    destruct (if truthy _ then refs_get _ _ else Some None) as [[i |] |];
      [ | | discriminate ].
    + destruct (truthy (PDict i)).
      * unfold refs_get. destruct (hashable _); cbn [option_map]; [ | discriminate ].
        now intros [= <-].
      * now intros [= <-].
    + now intros [= <-].
  - intros cd idt Href. apply reference_data_dicts in Href as [_ Hidt].
    cbn [file_data] in Hidt. rewrite Hload, lookup_dict_empty in Hidt.
    injection Hidt as <-. split; [ reflexivity | ].
    intros msg r. unfold build_row.
    destruct (truthy (extract_foreign_key msg _));
      [ unfold refs_get at 1; destruct (hashable _); [ | discriminate ] | ];
      cbn [table_get]; intros [= <-];
      cbn [instance_name company_id company_name name_of]; repeat split.
  - intros Hcommit. unfold main_with_references, reference_data.
    rewrite insert_file_broken, Hcommit by exact Hload.
    rewrite insert_file_broken, Hcommit by exact Hload.
    cbn [insert_file]. now rewrite lookup_dict_empty.
Qed.

(** An identifier that is a list or an object (the [$oid] wrapper
    gives whatever it holds) cannot be looked up: the record is dropped
    there and then, without a word and without being counted, and the
    load goes on. So it is with the instance of a message, and with the
    company of the instance found, which is looked up even when it is
    empty. *)
Theorem unhashable_identifier_drops_the_record
    (conn : connection) (instances_dict companies_dict : refs) (batch_size : Z)
    (st : loader) (buf : pystr) (msg : dict) :
  json_loads buf = Some (PDict msg) ->
  let iid := extract_foreign_key msg (map u ["instance"; "instanceId"; "instance_id"]) in
  truthy iid = true ->
  (hashable iid = false
   \/ exists i, instances_dict iid = Some i /\ i <> []
                /\ hashable (extract_foreign_key i
                               (map u ["company"; "companyId"; "company_id"])) = false) ->
  build_row instances_dict companies_dict msg = None
  /\ on_object conn instances_dict companies_dict batch_size st buf = st.
Proof.
  intros Hloads iid Htruthy Hcase.
  assert (Hrow : build_row instances_dict companies_dict msg = None).
  { unfold build_row. fold iid. rewrite Htruthy. unfold refs_get at 1.
    destruct Hcase as [Hiid | (i & Hi & Hne & Hcid)].
    - now rewrite Hiid.
    - destruct (hashable iid); [ | reflexivity ]. rewrite Hi.
      assert (Hti : truthy (PDict i) = true) by (destruct i; [ congruence | reflexivity ]).
      rewrite Hti. unfold refs_get. now rewrite Hcid. }
  split; [ exact Hrow | ].
  unfold on_object, decode_row. now rewrite Hloads, Hrow.
Qed.

End ReferenceEdges.

Lemma lookup_finds_the_last_object_witness :
  let data :=
    file_data (Some (Some (js "[{'_id': 'c1', 'name': 'Old'}, null, {'name': 'x'}, {'_id': {'$oid': 'c1'}, 'name': 'New'}]"))) in
  exists objs t,
    py_iter data = Some objs
    /\ lookup_dict data = Some t
    /\ u "c1" <> []
    /\ (table_get t (PStr (u "c1")) = find (has_id (u "c1")) (rev (dicts_of objs))
        /\ (forall d, table_get t (PStr (u "c1")) = Some d ->
              In (PDict d) objs /\ extract_id d (u "_id") = PStr (u "c1")))
    /\ option_map (fun d => get_default d (u "name") PNone) (table_get t (PStr (u "c1")))
       = Some (PStr (u "New")).
Proof.
  intros data.
  assert (H : exists objs t,
            py_iter data = Some objs /\ lookup_dict data = Some t
            /\ option_map (fun d => get_default d (u "name") PNone)
                 (table_get t (PStr (u "c1"))) = Some (PStr (u "New"))).
  { eexists. eexists. split; [ vm_compute; reflexivity | ].
    split; [ vm_compute; reflexivity | vm_compute; reflexivity ]. }
  destruct H as (objs & t & Hiter & Hdict & Hname).
  assert (Hs : u "c1" <> []) by discriminate.
  exists objs, t.
  split; [ exact Hiter | split; [ exact Hdict | split; [ exact Hs | split ] ] ].
  - exact (lookup_finds_the_last_object data objs t (u "c1") Hiter Hdict Hs).
  - exact Hname.
Defined.

Lemma names_come_from_the_reference_files_witness :
  let cfile := Some (Some (js "[{'_id': 'c1', 'name': 'Adam'}]")) in
  let ifile :=
    Some (Some (js "[{'_id': {'$oid': 'i1'}, 'name': 'Main', 'company': {'$oid': 'c1'}}]")) in
  let msg := [(u "instance", PStr (u "i1")); (u "body", PStr (u "hello"))] in
  exists cd idt r,
    reference_data accepting_references cfile ifile None = Some (cd, idt)
    /\ extract_foreign_key msg (map u ["instance"; "instanceId"; "instance_id"])
       = PStr (u "i1")
    /\ build_row (table_get idt) (table_get cd) msg = Some r
    /\ instance_id r = PStr (u "i1")
    /\ instance_name r = PStr (u "Main")
    /\ company_id r = PStr (u "c1")
    /\ company_name r = PStr (u "Adam").
Proof.
  intros cfile ifile msg.
  assert (H : exists cd idt r companies instances,
            reference_data accepting_references cfile ifile None = Some (cd, idt)
            /\ py_iter (file_data cfile) = Some companies
            /\ py_iter (file_data ifile) = Some instances
            /\ build_row (table_get idt) (table_get cd) msg = Some r).
  { do 5 eexists. repeat split; vm_compute; reflexivity. }
  destruct H as (cd & idt & r & companies & instances & Href & Hcs & His & Hrow).
  assert (Hfk : extract_foreign_key msg (map u ["instance"; "instanceId"; "instance_id"])
                = PStr (u "i1")) by reflexivity.
  assert (Hs : u "i1" <> []) by discriminate.
  pose proof (names_come_from_the_reference_files accepting_references cfile ifile None
                cd idt companies instances msg r (u "i1") Href Hcs His Hfk Hs Hrow)
    as [Hid Hnames].
  assert (Hi : find (has_id (u "i1")) (rev (dicts_of instances))
               = Some [(u "_id", PDict [(u "$oid", PStr (u "i1"))]);
                       (u "name", PStr (u "Main"));
                       (u "company", PDict [(u "$oid", PStr (u "c1"))])]).
  { vm_compute in His. injection His as <-. vm_compute. reflexivity. }
  rewrite Hi in Hnames. destruct Hnames as (Hname & Hcid & Hcompany).
  assert (Hcid' : company_id r = PStr (u "c1")) by (rewrite Hcid; reflexivity).
  assert (Hc : u "c1" <> []) by discriminate.
  specialize (Hcompany (u "c1") Hcid' Hc).
  assert (Hfound : find (has_id (u "c1")) (rev (dicts_of companies))
                   = Some [(u "_id", PStr (u "c1")); (u "name", PStr (u "Adam"))]).
  { vm_compute in Hcs. injection Hcs as <-. vm_compute. reflexivity. }
  rewrite Hfound in Hcompany.
  exists cd, idt, r.
  split; [ exact Href | split; [ exact Hfk | split; [ exact Hrow | ] ] ].
  split; [ exact Hid | split; [ exact Hname | split; [ exact Hcid' | exact Hcompany ] ] ].
Defined.

Lemma broken_reference_file_is_an_empty_one_witness :
  json_loads (js "[{'_id': 'c1', 'name': 'Adam'}") = None
  /\ load_json_file (Some (js "[{'_id': 'c1', 'name': 'Adam'}")) = PList []
  /\ main_with_references accepting_references accepting
       (Some (Some (js "[{'_id': 'c1', 'name': 'Adam'}")))
       (Some (Some (js "[{'_id': 'c1', 'name': 'Adam'}"))) None (js "[{'body':'a'}]")
     = Some [Complete 1; DatabaseCreated].
Proof.
  assert (H : json_loads (js "[{'_id': 'c1', 'name': 'Adam'}") = None)
    by (vm_compute; reflexivity).
  destruct (broken_reference_file_is_an_empty_one accepting_references accepting
              (Some (js "[{'_id': 'c1', 'name': 'Adam'}")) None None
              (js "[{'body':'a'}]") H)
    as (Hload & _ & _ & Hmain).
  split; [ exact H | split; [ exact Hload | ] ].
  rewrite (Hmain (fun _ => eq_refl)). vm_compute. reflexivity.
Defined.

Lemma unhashable_identifier_drops_the_record_witness :
  json_loads (js "{'instance': {'$oid': ['i1']}, 'body': 'hello'}")
  = Some (PDict [(u "instance", PDict [(u "$oid", PList [PStr (u "i1")])]);
                 (u "body", PStr (u "hello"))])
  /\ build_row no_refs no_refs
       [(u "instance", PDict [(u "$oid", PList [PStr (u "i1")])]);
        (u "body", PStr (u "hello"))] = None
  /\ on_object accepting no_refs no_refs 5000 loader0
       (js "{'instance': {'$oid': ['i1']}, 'body': 'hello'}") = loader0
  /\ fst (stream_load_messages accepting no_refs no_refs 5000
            (js "[{'instance': {'$oid': ['i1']}, 'body': 'hello'}, {'body': 'b'}]")) = 1.
Proof.
  assert (H : json_loads (js "{'instance': {'$oid': ['i1']}, 'body': 'hello'}")
              = Some (PDict [(u "instance", PDict [(u "$oid", PList [PStr (u "i1")])]);
                             (u "body", PStr (u "hello"))]))
    by (vm_compute; reflexivity).
  destruct (unhashable_identifier_drops_the_record accepting no_refs no_refs 5000 loader0
              _ _ H eq_refl (or_introl eq_refl)) as [Hrow Hobj].
  split; [ exact H | split; [ exact Hrow | split; [ exact Hobj | ] ] ].
  vm_compute. reflexivity.
Defined.

Section ReferenceCrash.
Context {RT : Runtime}.

Lemma insert_one_none store op objs : fold_left (insert_one store op) objs None = None.
Proof. induction objs as [| c objs IH]; [ reflexivity | exact IH ]. Qed.

Lemma insert_one_stray store op c objs :
  In c objs -> extract_id_of c = None ->
  forall st, fold_left (insert_one store op) objs st = None.
Proof.
  intros Hin Hc. induction objs as [| c' objs IH]; intros st; [ destruct Hin | ].
  cbn [fold_left]. destruct Hin as [-> | Hin]; [ | now apply IH ].
  unfold insert_one at 2. rewrite Hc.
  destruct st; apply insert_one_none.
Qed.

Lemma insert_file_stray store op content n c :
  match py_iter (load_json_file content) with
  | Some objs => In c objs /\ extract_id_of c = None
  | None => True
  end ->
  insert_file store op (Some content) n = None.
Proof.
  unfold insert_file. cbv zeta.
  destruct (py_iter (load_json_file content)) as [objs |]; [ | reflexivity ].
  intros [Hin Hc]. now rewrite (insert_one_stray store op c objs Hin Hc).
Qed.

(** The elements [extract_id] raises on, and those it passes over. *)
Lemma extract_id_of_raises c :
  extract_id_of c = None
  <-> match c with
      | PBool b => b = true
      | PInt n => n <> 0
      | PFloat f => sf_is_zero f = false
      | PStr s => contains (u "_id") s = true
      | PList l => exists s, In (PStr s) l /\ str_eqb s (u "_id") = true
      | PNone | PDict _ => False
      end.
Proof.
  unfold extract_id_of. destruct c as [| b | n | f | s | l | d]; cbn [truthy negb].
  - split; [ discriminate | tauto ].
  - destruct b; cbn [negb]; split; auto; discriminate.
  - destruct (Z.eqb_spec n 0); cbn [negb]; split; auto; try discriminate. tauto.
  - destruct (sf_is_zero f); cbn [negb]; split; auto; discriminate.
  - destruct s as [| x s]; cbn [negb].
    + split; discriminate.
    + destruct (contains (u "_id") (x :: s)); split; auto; discriminate.
  - destruct l as [| x l]; cbn [negb].
    + split; [ discriminate | intros (s & [] & _) ].
    + destruct (existsb _ (x :: l)) eqn:E.
      * split; [ intros _ | reflexivity ].
        apply existsb_exists in E as (e & Hin & He).
        destruct e; try discriminate. eauto.
      * split; [ discriminate | ].
        intros (s & Hin & Hs). exfalso.
        assert (existsb (fun e => match e with
                                  | PStr s => str_eqb s (u "_id")
                                  | _ => false
                                  end) (x :: l) = true)
          by (apply existsb_exists; exists (PStr s); auto).
        congruence.
  - destruct d; cbn [negb]; split; try discriminate; tauto.
Qed.

(** What a reference file must not hold. [extract_id] raises on
    an element that is a number other than zero or [true], a string that
    contains ['_id'], or a list that holds ['_id'], and on no other; and
    nothing catches it, nor the error of the loop on a content that is a
    number, a boolean or null. Such a file, be it the one of the
    companies, the instances or the broadcasts, ends [main] before a
    message is read, whatever the store does. In particular a file that
    holds one object with an [_id], instead of a list of objects, does so:
    the loop goes over its keys. *)
Theorem stray_element_ends_main
    (store : reference_store) (conn : connection) (content : option pystr) (c : pyval)
    (first second : option (option pystr)) (text : pystr) :
  match py_iter (load_json_file content) with
  | Some objs => In c objs /\ extract_id_of c = None
  | None => True
  end ->
  (main_with_references store conn (Some content) first second text = None
   /\ main_with_references store conn first (Some content) second text = None
   /\ main_with_references store conn first second (Some content) text = None)
  /\ forall e,
       extract_id_of e = None
       <-> match e with
           | PBool b => b = true
           | PInt n => n <> 0
           | PFloat f => sf_is_zero f = false
           | PStr s => contains (u "_id") s = true
           | PList l => exists s, In (PStr s) l /\ str_eqb s (u "_id") = true
           | PNone | PDict _ => False
           end.
Proof.
  intros Hstray. split; [ | exact extract_id_of_raises ].
  pose proof (fun op n => insert_file_stray store op content n c Hstray) as Hfile.
  unfold main_with_references, reference_data.
  repeat split.
  - now rewrite Hfile.
  - destruct (insert_file store company_op first 0) as [[companies n1] |];
      [ now rewrite Hfile | reflexivity ].
  - destruct (insert_file store company_op first 0) as [[companies n1] |];
      [ | reflexivity ].
    destruct (insert_file store instance_op second n1) as [[instances n2] |];
      [ now rewrite Hfile | reflexivity ].
Qed.

End ReferenceCrash.

Lemma stray_element_ends_main_witness :
  match py_iter (load_json_file (Some (js "{'_id': 'c1', 'name': 'Adam'}"))) with
  | Some objs => In (PStr (u "_id")) objs /\ extract_id_of (PStr (u "_id")) = None
  | None => True
  end
  /\ main_with_references accepting_references accepting
       (Some (Some (js "{'_id': 'c1', 'name': 'Adam'}"))) None None (js "[{'body':'a'}]")
     = None
  /\ main_with_references accepting_references accepting
       (Some (Some (js "[null, '', {}, 'name', {'_id': 'c1'}]"))) None None
       (js "[{'body':'a'}]")
     = Some [Complete 1; DatabaseCreated].
Proof.
  assert (H : match py_iter (load_json_file (Some (js "{'_id': 'c1', 'name': 'Adam'}"))) with
              | Some objs =>
                  In (PStr (u "_id")) objs /\ extract_id_of (PStr (u "_id")) = None
              | None => True
              end).
  { vm_compute. split; [ now left | reflexivity ]. }
  split; [ exact H | split ].
  - exact (proj1 (proj1 (stray_element_ends_main accepting_references accepting
                    (Some (js "{'_id': 'c1', 'name': 'Adam'}")) (PStr (u "_id"))
                    None None (js "[{'body':'a'}]") H))).
  - vm_compute. reflexivity.
Defined.
